(** * icu_monitor_one_shot: fetch -> diff -> notify -> save state -> exit

    A shallow embedding of [src/icu_monitor_one_shot.py] and the properties
    of its extractor ([parse_page]), filter ([passes_filter]) and differ
    ([main]).

    Conventions of the embedding.
    - Text is a [string] whose characters are code points below 256; the
      classes of the [re] module ([\d], [\w], [[A-Z]]) and [str.strip] are
      the ones Python applies to such code points.
    - A Python [dict] keeps insertion order, and the order of the emitted
      notifications follows it: a dict is an association list whose keys are
      kept distinct by [dict_set].
    - A page is taken after [BeautifulSoup]: the list of its [tr] elements,
      each with its [valign] attribute and the text of each of its [td]
      descendants ([get_text(" ", strip=True)]).
    - Seat counts are Python integers: [Z].  [int] is taken to convert
      any run of digits; the statements that say when a call returns carry
      CPython's limit on the number of digits as a hypothesis
      ([within_int_limit]).
    - [state.json] is absent, unparseable, or an object as the program
      writes it ([StateFile]); a file of another shape is outside the
      model. *)

From Stdlib Require Import String Ascii List ZArith NArith Bool Lia.
Import ListNotations.
Local Open Scope string_scope.
Local Open Scope list_scope.
Local Open Scope Z_scope.

(** ** Characters *)

Module Chars.

Definition ord (c : ascii) : N := N_of_ascii c.

Definition between (lo hi : N) (c : ascii) : bool :=
  (lo <=? ord c)%N && (ord c <=? hi)%N.

(** [\d] on a [str] pattern: the decimal digits; below 256 these are 0-9. *)
Definition is_digit (c : ascii) : bool := between 48 57 c.

(** [[A-Z]]. *)
Definition is_upper (c : ascii) : bool := between 65 90 c.

Definition is_lower (c : ascii) : bool := between 97 122 c.

(** [\w] on a [str] pattern: alphanumeric or underscore.  Below 256 the
    alphanumerics outside ASCII are the Latin-1 letters, the ordinal
    indicators, the micro sign, the superscript digits and the fractions. *)
Definition is_word (c : ascii) : bool :=
  is_digit c || is_upper c || is_lower c || (ord c =? 95)%N
  || (ord c =? 170)%N || between 178 179 c || (ord c =? 181)%N
  || between 185 186 c || between 188 190 c
  || between 192 214 c || between 216 246 c || between 248 255 c.

(** [str.isspace]. *)
Definition is_space (c : ascii) : bool :=
  between 9 13 c || between 28 32 c || (ord c =? 133)%N || (ord c =? 160)%N.

(** [str.upper] on one character, for the ASCII letters. *)
Definition upper_char (c : ascii) : ascii :=
  if is_lower c then ascii_of_N (ord c - 32) else c.

Definition digit_val (c : ascii) : Z := Z.of_N (ord c) - 48.

End Chars.
Import Chars.

(** ** Strings *)

Fixpoint lstrip (s : string) : string :=
  match s with
  | String c r => if is_space c then lstrip r else s
  | EmptyString => EmptyString
  end.

Fixpoint rstrip (s : string) : string :=
  match s with
  | String c r =>
      match rstrip r with
      | EmptyString => if is_space c then EmptyString else String c EmptyString
      | r' => String c r'
      end
  | EmptyString => EmptyString
  end.

(** [s.strip()] *)
Definition strip (s : string) : string := rstrip (lstrip s).

(** [s.upper()] *)
Fixpoint upper (s : string) : string :=
  match s with
  | String c r => String (upper_char c) (upper r)
  | EmptyString => EmptyString
  end.

(** [int(s)] on a string of decimal digits. *)
Fixpoint int_acc (acc : Z) (s : string) : Z :=
  match s with
  | String c r => int_acc (10 * acc + digit_val c) r
  | EmptyString => acc
  end.

Definition int (s : string) : Z := int_acc 0 s.

(** ** The two regular expressions *)

(** The longest prefix of digits: what the greedy [\d+] consumes. *)
Fixpoint take_digits (s : string) : string :=
  match s with
  | String c r => if is_digit c then String c (take_digits r) else EmptyString
  | EmptyString => EmptyString
  end.

(** [re.search(r"(\d+)", s)]: group 1 of the leftmost match, if any. *)
Fixpoint search_digits (s : string) : option string :=
  match s with
  | String c r =>
      if is_digit c then Some (String c (take_digits r)) else search_digits r
  | EmptyString => None
  end.

(** [extract_int] *)
Definition extract_int (s : string) : option Z :=
  match search_digits s with
  | Some g => Some (int g)
  | None => None
  end.

Definition starts_with_word (s : string) : bool :=
  match s with
  | String c _ => is_word c
  | EmptyString => false
  end.

(** [[A-Z]{3}\d{3}\b] matched at the head of [s]. *)
Definition code_here (s : string) : option string :=
  match s with
  | String a (String b (String c (String d (String e (String f r))))) =>
      if is_upper a && is_upper b && is_upper c
         && is_digit d && is_digit e && is_digit f
         && negb (starts_with_word r)
      then Some (String a (String b (String c (String d (String e (String f EmptyString))))))
      else None
  | _ => None
  end.

(** The scan of [re.search]: [prev_word] tells whether the character before
    the head of [s] is a word character, which decides the leading [\b]
    (the pattern starts with a word character). *)
Fixpoint search_code_from (prev_word : bool) (s : string) : option string :=
  match s with
  | String c r =>
      match (if prev_word then None else code_here s) with
      | Some g => Some g
      | None => search_code_from (is_word c) r
      end
  | EmptyString => None
  end.

(** [re.search(r"\b([A-Z]{3}\d{3})\b", s)]: group 1 of the leftmost match. *)
Definition search_code (s : string) : option string := search_code_from false s.

(** ** Insertion-ordered dictionaries *)

Section Dict.
Context {V : Type}.

Definition dict := list (string * V).

(** [d.get(k)] *)
Fixpoint dict_get (k : string) (d : dict) : option V :=
  match d with
  | (k', v) :: r => if String.eqb k k' then Some v else dict_get k r
  | [] => None
  end.

(** [k in d] *)
Definition dict_mem (k : string) (d : dict) : bool :=
  match dict_get k d with Some _ => true | None => false end.

(** [d[k] = v]: an existing key keeps its place, a new one goes last. *)
Fixpoint dict_set (k : string) (v : V) (d : dict) : dict :=
  match d with
  | (k', v') :: r =>
      if String.eqb k k' then (k', v) :: r else (k', v') :: dict_set k v r
  | [] => [(k, v)]
  end.

(** [d.keys()] *)
Definition dict_keys (d : dict) : list string := map fst d.

(** [d.update(other)] *)
Definition dict_update (d other : dict) : dict :=
  fold_left (fun acc kv => dict_set (fst kv) (snd kv) acc) other d.

(** [{k: v for k, v in d.items() if p(k)}] *)
Definition dict_filter (p : string -> bool) (d : dict) : dict :=
  filter (fun kv => p (fst kv)) d.

(** Keys are pairwise distinct, as in every Python dict. *)
Definition dict_wf (d : dict) : Prop := NoDup (dict_keys d).
End Dict.
Arguments dict V : clear implicits.

(** ** Configuration (module-level constants read from the environment) *)

Record Config := {
  PORTAL_URLS : list string;
  COURSE_CODES : list string;
  CODE_PREFIXES : list string;
  INITIAL_NOTIFY : bool
}.

(** [code in COURSE_CODES] *)
Definition str_in (code : string) (l : list string) : bool :=
  existsb (String.eqb code) l.

(** [passes_filter] *)
Definition passes_filter (cfg : Config) (code : string) : bool :=
  match COURSE_CODES cfg with
  | _ :: _ => str_in code (COURSE_CODES cfg)
  | [] =>
      match CODE_PREFIXES cfg with
      | _ :: _ => existsb (fun p => String.prefix p code) (CODE_PREFIXES cfg)
      | [] => true
      end
  end.

(** ** Extractor *)

(** The record [{"open": ..., "seats": ...}] built by [parse_page]. *)
Record Info := { open : bool; seats : Z }.

(** A [tr] element: its [valign] attribute and the texts of its [td]s. *)
Record Row := { valign : option string; tds : list string }.

Inductive Exn :=
| IndexError
| RequestException   (* requests.get raised: timeout, transport error *)
| HTTPError.         (* raise_for_status raised *)

Inductive result (A : Type) :=
| Ok (a : A)
| Raise (e : Exn).
Arguments Ok {A} a.
Arguments Raise {A} e.

Definition bind {A B} (m : result A) (f : A -> result B) : result B :=
  match m with
  | Ok a => f a
  | Raise e => Raise e
  end.

Notation "x <- m ;; k" := (bind m (fun x => k))
  (at level 61, m at next level, right associativity).

(** [tr.get("valign") != "top"] *)
Definition valign_not_top (tr : Row) : bool :=
  match valign tr with
  | Some v => negb (String.eqb v "top")
  | None => true
  end.

(** One iteration of the loop of [parse_page] over the rows. *)
Definition parse_row (out : dict Info) (tr : Row) : result (dict Info) :=
  match tds tr with
  | [] => Ok out                                           (* if not tds *)
  | _ :: _ =>
      if valign_not_top tr && (Z.of_nat (length (tds tr)) <? 7) then Ok out
      else
        match nth_error (tds tr) 1 with
        | None => Raise IndexError                         (* tds[1] *)
        | Some cell =>
            let code_text := strip cell in
            match search_code code_text with
            | None => Ok out
            | Some g =>
                let code := upper g in
                match extract_int (last (tds tr) EmptyString) with
                | None => Ok out
                | Some n =>
                    Ok (dict_set code {| open := 0 <? n; seats := n |} out)
                end
            end
        end
  end.

Fixpoint parse_rows (out : dict Info) (rows : list Row) : result (dict Info) :=
  match rows with
  | tr :: rest => out' <- parse_row out tr ;; parse_rows out' rest
  | [] => Ok out
  end.

(** [parse_page] *)
Definition parse_page (html : list Row) : result (dict Info) :=
  parse_rows [] html.

(** ** Aggregator *)

(** What [requests.get(url, ...)] followed by [r.raise_for_status()] does:
    the call itself raises, or a response comes back whose status either
    makes [raise_for_status] raise or not; [page] is [r.text] as parsed. *)
Inductive Fetched :=
| GetRaises
| Response (status_ok : bool) (page : list Row).

Fixpoint fetch_urls (fetch : string -> Fetched) (merged : dict Info)
    (urls : list string) : result (dict Info) :=
  match urls with
  | url :: rest =>
      match fetch url with
      | GetRaises => Raise RequestException
      | Response false _ => Raise HTTPError
      | Response true html =>
          out <- parse_page html ;;
          fetch_urls fetch (dict_update merged out) rest
      end
  | [] => Ok merged
  end.

(** [fetch_all] *)
Definition fetch_all (cfg : Config) (fetch : string -> Fetched)
    : result (dict Info) :=
  fetch_urls fetch [] (PORTAL_URLS cfg).

(** ** Differ *)

(** A record of the baseline, as the program writes it: the two keys set by
    [parse_page] and the key ["_gone_notified"], read with [.get], so a
    record without the key has [gone_notified = false].  Such a record is
    never an empty dict, so [not prev] in [main] holds exactly when
    [prev_courses.get(code)] is [None]. *)
Record CourseRecord := {
  rec_open : bool;
  rec_seats : Z;
  gone_notified : bool
}.

(** The dict built by [parse_page] stored as a baseline record: it has no
    ["_gone_notified"] key. *)
Definition of_info (i : Info) : CourseRecord :=
  {| rec_open := open i; rec_seats := seats i; gone_notified := false |}.

(** [prev_courses[code]["_gone_notified"] = True] *)
Definition mark_gone (r : CourseRecord) : CourseRecord :=
  {| rec_open := rec_open r; rec_seats := rec_seats r; gone_notified := true |}.

(** The messages passed to [notify], by their kind and the values
    interpolated into them. *)
Inductive Event :=
| EvInitial (code : string) (o : bool) (left : Z)
| EvAppeared (code : string) (o : bool) (left : Z)
| EvNowOpen (code : string) (prev_left left : Z)
| EvNowClosed (code : string) (prev_left left : Z)
| EvSeats (code : string) (prev_left left : Z)
| EvGone (code : string).

Definition event_code (e : Event) : string :=
  match e with
  | EvInitial c _ _ | EvAppeared c _ _ | EvNowOpen c _ _
  | EvNowClosed c _ _ | EvSeats c _ _ | EvGone c => c
  end.

Definition is_gone_event (e : Event) : bool :=
  match e with EvGone _ => true | _ => false end.

(** What a run sends out: notifications, and the two lines it prints. *)
Inductive Output :=
| Notify (e : Event)
| Stdout (line : string).

(** The local variables of [main] that the two loops update. *)
Record DiffState := {
  prev_courses : dict CourseRecord;
  changed : bool;
  events : list Event
}.

(** [prev_courses[code] = info; changed = True; notify(...)] *)
Definition replace_entry (st : DiffState) (code : string) (info : Info)
    (e : Event) : DiffState :=
  {| prev_courses := dict_set code (of_info info) (prev_courses st);
     changed := true;
     events := events st ++ [e] |}.

(** The body of [for code, info in latest.items()]. *)
Definition diff_step (st : DiffState) (kv : string * Info) : DiffState :=
  let code := fst kv in
  let info := snd kv in
  match dict_get code (prev_courses st) with
  | None => replace_entry st code info (EvAppeared code (open info) (seats info))
  | Some prev =>
      if negb (Bool.eqb (rec_open prev) (open info)) then
        replace_entry st code info
          (if open info then EvNowOpen code (rec_seats prev) (seats info)
           else EvNowClosed code (rec_seats prev) (seats info))
      else if negb (rec_seats prev =? seats info) then
        replace_entry st code info (EvSeats code (rec_seats prev) (seats info))
      else st
  end.

Definition diff_latest (latest : dict Info) (st : DiffState) : DiffState :=
  fold_left diff_step latest st.

(** The body of [for code in list(prev_courses.keys())].  The subscript
    [prev_courses[code]] cannot fail: [code] is one of the keys and no entry
    is ever removed (lemma [gone_step_keys]). *)
Definition gone_step (cfg : Config) (latest : dict Info) (st : DiffState)
    (code : string) : DiffState :=
  if passes_filter cfg code && negb (dict_mem code latest) then
    match dict_get code (prev_courses st) with
    | Some r =>
        if gone_notified r then st
        else {| prev_courses := dict_set code (mark_gone r) (prev_courses st);
                changed := true;
                events := events st ++ [EvGone code] |}
    | None => st
    end
  else st.

Definition scan_gone (cfg : Config) (latest : dict Info) (st : DiffState)
    : DiffState :=
  fold_left (gone_step cfg latest) (dict_keys (prev_courses st)) st.

(** The steady-state part of [main]: both loops. *)
Definition differ (cfg : Config) (latest : dict Info)
    (baseline : dict CourseRecord) : DiffState :=
  scan_gone cfg latest
    (diff_latest latest
       {| prev_courses := baseline; changed := false; events := [] |}).

(** ** The run *)

(** [state.json]: absent, not parseable as JSON, or the ["courses"] mapping
    of the object it holds. *)
Inductive StateFile :=
| Missing
| Corrupt
| Stored (courses : dict CourseRecord).

(** [state.get("courses", {})] after the [try]/[except] around the load. *)
Definition load_courses (f : StateFile) : dict CourseRecord :=
  match f with
  | Stored c => c
  | Missing | Corrupt => []
  end.

(** [first_run = (len(prev_courses) == 0)] *)
Definition first_run (f : StateFile) : bool :=
  match load_courses f with
  | [] => true
  | _ :: _ => false
  end.

Definition initialized_line : string := "Initialized baseline (no notifications).".
Definition no_changes_line : string := "No changes.".

Record Run := {
  outcome : result unit;      (* returned, or the exception that ended it *)
  file_written : bool;        (* STATE_PATH.write_text was called *)
  file_after : StateFile;
  output : list Output
}.

(** [state["courses"] = latest] *)
Definition as_baseline (latest : dict Info) : dict CourseRecord :=
  map (fun kv => (fst kv, of_info (snd kv))) latest.

Definition initial_event (kv : string * Info) : Event :=
  EvInitial (fst kv) (open (snd kv)) (seats (snd kv)).

(** The branch [if first_run:]. *)
Definition first_run_branch (cfg : Config) (latest : dict Info) : Run :=
  {| outcome := Ok tt;
     file_written := true;
     file_after := Stored (as_baseline latest);
     output := if INITIAL_NOTIFY cfg
               then map (fun kv => Notify (initial_event kv)) latest
               else [Stdout initialized_line] |}.

(** The rest of [main]: the two loops and the conditional save. *)
Definition steady_branch (cfg : Config) (latest : dict Info)
    (file : StateFile) : Run :=
  let st := differ cfg latest (load_courses file) in
  {| outcome := Ok tt;
     file_written := changed st;
     file_after := if changed st then Stored (prev_courses st) else file;
     output := map Notify (events st)
               ++ (if changed st then [] else [Stdout no_changes_line]) |}.

(** [latest] as [main] computes it: fetched, merged, filtered. *)
Definition latest_of (cfg : Config) (fetch : string -> Fetched)
    : result (dict Info) :=
  merged <- fetch_all cfg fetch ;;
  Ok (dict_filter (passes_filter cfg) merged).

(** [main] *)
Definition main (cfg : Config) (fetch : string -> Fetched) (file : StateFile)
    : Run :=
  match latest_of cfg fetch with
  | Raise e =>
      {| outcome := Raise e; file_written := false; file_after := file;
         output := [] |}
  | Ok latest =>
      if first_run file then first_run_branch cfg latest
      else steady_branch cfg latest file
  end.

(** Successive invocations by the scheduler: each run starts from the file
    the previous one left.  A run is given by its configuration and by what
    the network answers during it. *)
Fixpoint runs (inputs : list (Config * (string -> Fetched)))
    (file : StateFile) : list Run :=
  match inputs with
  | (cfg, fetch) :: rest =>
      let r := main cfg fetch file in
      r :: runs rest (file_after r)
  | [] => []
  end.

(** ** Vocabulary of the statements *)

(** [code.startswith(p)], as a statement. *)
Definition starts_with (code p : string) : Prop :=
  exists rest, code = (p ++ rest)%string.

(** Every character of [s] satisfies [p]. *)
Fixpoint all_chars (p : ascii -> bool) (s : string) : bool :=
  match s with
  | String c r => p c && all_chars p r
  | EmptyString => true
  end.

(** [s] begins with a decimal digit. *)
Definition starts_with_digit (s : string) : bool :=
  match s with
  | String c _ => is_digit c
  | EmptyString => false
  end.

(** [n] is the value of the first integer substring of [s]: the leftmost
    maximal run of decimal digits. *)
Definition first_int (s : string) (n : Z) : Prop :=
  exists pre g post,
    s = (pre ++ g ++ post)%string
    /\ all_chars (fun c => negb (is_digit c)) pre = true
    /\ g <> EmptyString
    /\ all_chars is_digit g = true
    /\ starts_with_digit post = false
    /\ n = int g.

(** Three letters of [A-Z] followed by three decimal digits. *)
Definition is_course_code (g : string) : Prop :=
  exists a b c d e f,
    g = String a (String b (String c (String d (String e (String f EmptyString)))))
    /\ is_upper a = true /\ is_upper b = true /\ is_upper c = true
    /\ is_digit d = true /\ is_digit e = true /\ is_digit f = true.

(** The entry that a row contributes. *)
Definition extracted_from (tr : Row) (code : string) (i : Info) : Prop :=
  exists cell g,
    nth_error (tds tr) 1 = Some cell
    /\ search_code (strip cell) = Some g
    /\ code = upper g
    /\ first_int (last (tds tr) EmptyString) (seats i)
    /\ 0 <= seats i
    /\ open i = (0 <? seats i).

(** A row that passes both guards of [parse_page] with a single cell:
    marked [valign="top"], so the test on the number of cells is not made. *)
Definition short_top_row (tr : Row) : Prop :=
  valign tr = Some "top" /\ length (tds tr) = 1%nat.

(** The fetch of a page fails: [requests.get] raises, or the status makes
    [raise_for_status] raise. *)
Definition fetch_failed (f : Fetched) : Prop :=
  f = GetRaises \/ exists page, f = Response false page.

(** The classification of one code of [latest] against its baseline record,
    in the order of the specification: appeared, open-state changed, seats
    changed, no change. *)
Definition classify (prev : option CourseRecord) (code : string)
    (info : Info) : option Event :=
  match prev with
  | None => Some (EvAppeared code (open info) (seats info))
  | Some p =>
      if negb (Bool.eqb (rec_open p) (open info)) then
        Some (if open info then EvNowOpen code (rec_seats p) (seats info)
              else EvNowClosed code (rec_seats p) (seats info))
      else if negb (rec_seats p =? seats info) then
        Some (EvSeats code (rec_seats p) (seats info))
      else None
  end.

(** The classification of an entry of [latest] against the baseline [d]. *)
Definition fired (d : dict CourseRecord) (kv : string * Info) : option Event :=
  classify (dict_get (fst kv) d) (fst kv) (snd kv).

(** An optional event as a list of at most one event. *)
Definition option_list {A} (o : option A) : list A :=
  match o with Some a => [a] | None => [] end.

(** [o is not None] *)
Definition is_some {A} (o : option A) : bool :=
  match o with Some _ => true | None => false end.

(** The three tests of the scan: in scope, absent from [latest], not yet
    notified. *)
Definition gone_fires (cfg : Config) (latest : dict Info)
    (d : dict CourseRecord) (c : string) : bool :=
  passes_filter cfg c && negb (dict_mem c latest)
  && match dict_get c d with
     | Some r => negb (gone_notified r)
     | None => false
     end.

(** The baseline with the flag set on the record of [c]. *)
Definition mark_at (c : string) (d : dict CourseRecord) : dict CourseRecord :=
  match dict_get c d with
  | Some r => dict_set c (mark_gone r) d
  | None => d
  end.

(** The scan over a given list of keys. *)
Definition gone_fold (cfg : Config) (latest : dict Info) (ks : list string)
    (st : DiffState) : DiffState :=
  fold_left (gone_step cfg latest) ks st.

(** The notifications of a run that are about [code]. *)
Definition events_for (code : string) (evs : list Event) : list Event :=
  filter (fun e => String.eqb (event_code e) code) evs.

(** The notifications among what a run sends out. *)
Definition notifications (o : list Output) : list Event :=
  flat_map (fun x => match x with Notify e => [e] | Stdout _ => [] end) o.


(** The state file after a sequence of runs. *)
Fixpoint file_after_runs (inputs : list (Config * (string -> Fetched)))
    (file : StateFile) : StateFile :=
  match inputs with
  | (cfg, fetch) :: rest => file_after_runs rest (file_after (main cfg fetch file))
  | [] => file
  end.



(** [e] is the disappearance event about [code]. *)
Definition is_gone_of (code : string) (e : Event) : bool :=
  is_gone_event e && String.eqb (event_code e) code.

(** How many of [evs] are disappearance events about [code]. *)
Definition gone_count (code : string) (evs : list Event) : nat :=
  length (filter (is_gone_of code) evs).

(** The disappearance notifications about [code] that a run sends. *)
Definition run_gone_count (code : string) (r : Run) : nat :=
  gone_count code (notifications (output r)).

(** The baseline in the state file has a record for [code], with the flag
    set or not. *)
Definition flag_is (b : bool) (file : StateFile) (code : string) : Prop :=
  exists r, dict_get code (load_courses file) = Some r /\ gone_notified r = b.

(** What a run observes of [code]. *)
Definition sees (b : bool) (code : string)
    (input : Config * (string -> Fetched)) : Prop :=
  exists latest,
    latest_of (fst input) (snd input) = Ok latest /\ dict_mem code latest = b.

(** The run is ended by an exception while fetching and parsing. *)
Definition aborts (input : Config * (string -> Fetched)) : Prop :=
  exists e, latest_of (fst input) (snd input) = Raise e.

(** A run that does not find [code], and one that does not lose it. *)
Definition absent_or_aborts (code : string)
    (input : Config * (string -> Fetched)) : Prop :=
  sees false code input \/ aborts input.

Definition present_or_aborts (code : string)
    (input : Config * (string -> Fetched)) : Prop :=
  sees true code input \/ aborts input.

(** ** Configuration read from the environment *)

(** [s.split(",")]: the pieces between the commas, empty ones included. *)
Fixpoint split_commas (s : string) : list string :=
  match s with
  | EmptyString => [EmptyString]
  | String c r =>
      if Ascii.eqb c ","%char then EmptyString :: split_commas r
      else match split_commas r with
           | h :: t => String c h :: t
           | [] => [String c EmptyString]
           end
  end.

(** [not s] on a string. *)
Definition is_empty (s : string) : bool :=
  match s with
  | EmptyString => true
  | String _ _ => false
  end.

(** [[u.strip() for u in v.split(",") if u.strip()]] *)
Definition env_list (v : string) : list string :=
  map strip (filter (fun u => negb (is_empty (strip u))) (split_commas v)).

Definition default_portal_url : string :=
  "https://course-reg.icu.ac.jp/reg/prereg_clist/GEN.html".

(** [os.getenv(name, default)], given the value of the variable if set. *)
Definition getenv (value : option string) (default : string) : string :=
  match value with
  | Some v => v
  | None => default
  end.

(** [PORTAL_URLS], from the value of the environment variable. *)
Definition portal_urls (value : option string) : list string :=
  env_list (getenv value default_portal_url).

(** [str.lower] on one character: the ASCII capitals and, above them, the
    Latin-1 capitals (all but the multiplication sign) move up by 32. *)
Definition lower_char (c : ascii) : ascii :=
  if is_upper c || (between 192 222 c && negb (ord c =? 215)%N)
  then ascii_of_N (ord c + 32) else c.

(** [s.lower()] *)
Fixpoint lower (s : string) : string :=
  match s with
  | String c r => String (lower_char c) (lower r)
  | EmptyString => EmptyString
  end.

(** [INITIAL_NOTIFY], from the value of the environment variable. *)
Definition initial_notify (value : option string) : bool :=
  negb (str_in (lower (getenv value "0")) ["0"; "false"; ""]).

(** ** Vocabulary of the further statements *)

(** The last character of [s] is a word character. *)
Fixpoint last_is_word (s : string) : bool :=
  match s with
  | EmptyString => false
  | String c EmptyString => is_word c
  | String _ r => last_is_word r
  end.

(** [s] begins, or ends, with a whitespace character. *)
Definition starts_with_space (s : string) : bool :=
  match s with
  | String c _ => is_space c
  | EmptyString => false
  end.

Fixpoint ends_with_space (s : string) : bool :=
  match s with
  | EmptyString => false
  | String c EmptyString => is_space c
  | String _ r => ends_with_space r
  end.

(** Any character but the comma. *)
Definition not_comma (c : ascii) : bool := negb (Ascii.eqb c ","%char).

(** A comma or a whitespace character. *)
Definition comma_or_space (c : ascii) : bool :=
  is_space c || Ascii.eqb c ","%char.

(** An item that can be written in a comma-separated variable: not empty,
    without comma, without whitespace at either end. *)
Definition clean_item (u : string) : Prop :=
  u <> EmptyString
  /\ all_chars (fun c => negb (Ascii.eqb c ","%char)) u = true
  /\ starts_with_space u = false
  /\ ends_with_space u = false.

(** The number of digits that [int] converts: CPython's default limit
    ([sys.int_info.default_max_str_digits], from 3.11 on; no limit
    before), past which [int] raises [ValueError]. *)
Definition int_max_str_digits : nat := 4300.

(** The first run of digits of [s], if there is one, is within that limit,
    so that [int(m.group(1))] returns. *)
Definition within_int_limit (s : string) : bool :=
  match search_digits s with
  | Some g => Nat.leb (String.length g) int_max_str_digits
  | None => true
  end.

(** The last cell of every row of the page is within the limit. *)
Definition page_within_int_limit (html : list Row) : Prop :=
  Forall (fun tr => within_int_limit (last (tds tr) EmptyString) = true) html.

(** So is every page that the fetch returns for one of the URLs. *)
Definition pages_within_int_limit (fetch : string -> Fetched)
    (urls : list string) : Prop :=
  Forall (fun u => forall page, fetch u = Response true page ->
                                page_within_int_limit page) urls.

(** The page of [u] is fetched with a good status and holds no row marked
    [valign="top"] with a single cell. *)
Definition fetched_and_parsable (fetch : string -> Fetched) (u : string)
    : Prop :=
  exists page,
    fetch u = Response true page
    /\ Forall (fun tr => ~ short_top_row tr) page.

(** The row, taken alone, contributes the entry [(code, info)]. *)
Definition row_yields (tr : Row) (code : string) (info : Info) : Prop :=
  parse_row [] tr = Ok [(code, info)].

(** The page of [u] is fetched and parsed into [snap]. *)
Definition page_snapshot (fetch : string -> Fetched) (u : string)
    (snap : dict Info) : Prop :=
  exists page, fetch u = Response true page /\ parse_page page = Ok snap.

(** The record is as [parse_page] builds it: seats not negative, open
    exactly when there are seats. *)
Definition record_consistent (r : CourseRecord) : Prop :=
  0 <= rec_seats r /\ rec_open r = (0 <? rec_seats r).

Definition baseline_consistent (file : StateFile) : Prop :=
  forall code r, In (code, r) (load_courses file) -> record_consistent r.

(** [evs] is not empty. *)
Definition some_event (evs : list Event) : bool :=
  match evs with
  | [] => false
  | _ :: _ => true
  end.

(** A letter in either case. *)
Definition either_case (lo up c : ascii) : Prop := c = lo \/ c = up.

(** The word "false" in any mix of cases. *)
Definition any_case_false (v : string) : Prop :=
  exists c1 c2 c3 c4 c5,
    v = String c1 (String c2 (String c3 (String c4 (String c5 EmptyString))))
    /\ either_case "f" "F" c1 /\ either_case "a" "A" c2
    /\ either_case "l" "L" c3 /\ either_case "s" "S" c4
    /\ either_case "e" "E" c5.

(** * Properties *)

(** ** Dictionaries *)

Section DictFacts.
Context {V : Type}.
Implicit Types (d : dict V) (k : string) (v : V).

Lemma dict_get_set_same k v d : dict_get k (dict_set k v d) = Some v.
Proof.
  induction d as [|[k' v'] r IH]; simpl.
  - now rewrite String.eqb_refl.
  - destruct (String.eqb_spec k k') as [->|Hne]; simpl.
    + now rewrite String.eqb_refl.
    + destruct (String.eqb_spec k k'); [contradiction|exact IH].
Qed.

Lemma dict_get_set_other k k' v d :
  k <> k' -> dict_get k' (dict_set k v d) = dict_get k' d.
Proof.
  intros Hne.
  induction d as [|[k0 v0] r IH]; simpl.
  - destruct (String.eqb_spec k' k); [congruence|reflexivity].
  - destruct (String.eqb_spec k k0) as [->|Hk]; simpl.
    + destruct (String.eqb_spec k' k0); [congruence|reflexivity].
    + now rewrite IH.
Qed.

Lemma dict_get_set k k' v d :
  dict_get k' (dict_set k v d)
  = if String.eqb k' k then Some v else dict_get k' d.
Proof.
  destruct (String.eqb_spec k' k) as [->|Hne].
  - apply dict_get_set_same.
  - apply dict_get_set_other; congruence.
Qed.

Lemma dict_get_some_in k v d : dict_get k d = Some v -> In (k, v) d.
Proof.
  induction d as [|[k' v'] r IH]; simpl; [discriminate|].
  destruct (String.eqb_spec k k') as [->|Hne].
  - intros [= ->]; now left.
  - intros H; right; auto.
Qed.

Lemma dict_get_none_keys k d : dict_get k d = None <-> ~ In k (dict_keys d).
Proof.
  induction d as [|[k' v'] r IH]; simpl.
  - tauto.
  - destruct (String.eqb_spec k k') as [->|Hne].
    + split; [discriminate|]. intros H; exfalso; apply H; now left.
    + rewrite IH. split.
      * intros H [E|HIn]; [congruence|tauto].
      * tauto.
Qed.

Lemma dict_mem_keys k d : dict_mem k d = true <-> In k (dict_keys d).
Proof.
  unfold dict_mem.
  destruct (dict_get k d) eqn:E.
  - split; [intros _|reflexivity].
    apply dict_get_some_in in E.
    change k with (fst (k, v)). now apply in_map.
  - apply dict_get_none_keys in E. split; [discriminate|contradiction].
Qed.

Lemma dict_get_in k v d : dict_wf d -> In (k, v) d -> dict_get k d = Some v.
Proof.
  unfold dict_wf.
  induction d as [|[k' v'] r IH]; simpl; [tauto|].
  intros Hnd [E|HIn].
  - injection E as -> ->. now rewrite String.eqb_refl.
  - inversion Hnd as [|? ? Hnotin Hnd']; subst.
    destruct (String.eqb_spec k k') as [->|Hne].
    + exfalso; apply Hnotin.
      change k' with (fst (k', v)). now apply in_map.
    + auto.
Qed.

Lemma dict_keys_set k v d :
  dict_keys (dict_set k v d)
  = if dict_mem k d then dict_keys d else dict_keys d ++ [k].
Proof.
  unfold dict_mem.
  induction d as [|[k' v'] r IH]; simpl; [reflexivity|].
  destruct (String.eqb_spec k k') as [->|Hne]; simpl; [reflexivity|].
  rewrite IH. now destruct (dict_get k r).
Qed.

Lemma dict_set_wf k v d : dict_wf d -> dict_wf (dict_set k v d).
Proof.
  unfold dict_wf. intros Hnd. rewrite dict_keys_set.
  destruct (dict_mem k d) eqn:E; [exact Hnd|].
  assert (Hnot : ~ In k (dict_keys d)).
  { intros HIn. apply dict_mem_keys in HIn. congruence. }
  clear E. induction (dict_keys d) as [|a l IH]; simpl.
  - constructor; [tauto|constructor].
  - inversion Hnd as [|? ? Ha Hl]; subst. constructor.
    + rewrite in_app_iff; simpl. intros [H|[H|[]]]; [tauto|].
      subst. apply Hnot. now left.
    + apply IH; [exact Hl|]. intros H. apply Hnot. now right.
Qed.

Lemma dict_in_set k v k' v' d :
  In (k', v') (dict_set k v d) -> (k' = k /\ v' = v) \/ In (k', v') d.
Proof.
  induction d as [|[k0 v0] r IH]; simpl.
  - intros [[= <- <-]|[]]; now left.
  - destruct (String.eqb_spec k k0) as [->|Hne]; simpl.
    + intros [[= <- <-]|H]; [now left|right; now right].
    + intros [H|H]; [right; now left|].
      destruct (IH H) as [?|?]; [now left|right; now right].
Qed.

Lemma dict_update_wf d other : dict_wf d -> dict_wf (dict_update d other).
Proof.
  unfold dict_update. revert d.
  induction other as [|[k v] r IH]; simpl; intros d Hd; [exact Hd|].
  apply IH. now apply dict_set_wf.
Qed.

Lemma dict_in_update k v d other :
  In (k, v) (dict_update d other) -> In (k, v) d \/ In (k, v) other.
Proof.
  unfold dict_update. revert d.
  induction other as [|[k0 v0] r IH]; simpl; intros d H; [now left|].
  destruct (IH _ H) as [H1|H1].
  - destruct (dict_in_set _ _ _ _ _ H1) as [[-> ->]|H2];
      [right; now left|now left].
  - right; now right.
Qed.

Lemma dict_filter_wf p d : dict_wf d -> dict_wf (dict_filter p d).
Proof.
  unfold dict_wf, dict_filter, dict_keys.
  induction d as [|[k v] r IH]; simpl; intros Hnd; [constructor|].
  inversion Hnd as [|? ? Hk Hr]; subst.
  destruct (p k); simpl; [|now apply IH].
  constructor; [|now apply IH].
  intros HIn. apply Hk.
  apply in_map_iff in HIn as [[k' v'] [E HIn]]. simpl in E; subst.
  apply filter_In in HIn as [HIn _].
  change k with (fst (k, v')). now apply in_map.
Qed.
End DictFacts.

(** ** Filter *)

Lemma prefix_starts_with p code :
  String.prefix p code = true <-> starts_with code p.
Proof.
  unfold starts_with. revert code.
  induction p as [|a p IH]; intros code.
  - split; [intros _; now exists code|intros _; now destruct code].
  - destruct code as [|b code]; simpl;
      [split; [discriminate|intros [r [=]]]|].
    destruct (ascii_dec a b) as [->|Hne].
    + rewrite IH. split; intros [r Hr]; exists r; congruence.
    + split; [discriminate|]. intros [r [= E _]]. congruence.
Qed.

Lemma str_in_In code l : str_in code l = true <-> In code l.
Proof.
  unfold str_in. rewrite existsb_exists. split.
  - intros [x [HIn E]]. apply String.eqb_eq in E. now subst.
  - intros HIn. exists code. split; [exact HIn|apply String.eqb_refl].
Qed.

(** C7. The filter decides by priority: a non-empty list of exact codes
    alone decides (membership), whatever the list of prefixes holds; with no
    exact code, a non-empty list of prefixes decides (the code starts with
    one of them); with neither, every code passes. *)
Theorem passes_filter_priority (cfg : Config) (code : string) :
  (COURSE_CODES cfg <> [] ->
     (passes_filter cfg code = true <-> In code (COURSE_CODES cfg)))
  /\ (COURSE_CODES cfg = [] -> CODE_PREFIXES cfg <> [] ->
        (passes_filter cfg code = true
         <-> exists p, In p (CODE_PREFIXES cfg) /\ starts_with code p))
  /\ (COURSE_CODES cfg = [] -> CODE_PREFIXES cfg = [] ->
        passes_filter cfg code = true).
Proof.
  unfold passes_filter.
  destruct (COURSE_CODES cfg) as [|c cs] eqn:Ec.
  - split; [congruence|]. split.
    + intros _ Hp.
      destruct (CODE_PREFIXES cfg) as [|p ps] eqn:Ep; [congruence|].
      rewrite existsb_exists.
      split; intros [q [HIn Hq]]; exists q; split; auto;
        now apply prefix_starts_with.
    + intros _ ->. reflexivity.
  - split; [|split; discriminate].
    intros _. apply str_in_In.
Qed.

(** The exact list wins with both lists configured: a code that starts
    with a listed prefix is rejected, and a listed code is accepted though
    no prefix fits it. *)
Lemma passes_filter_priority_witness :
  let cfg := {| PORTAL_URLS := ["u"]; COURSE_CODES := ["ABC123"];
                CODE_PREFIXES := ["XYZ"]; INITIAL_NOTIFY := false |} in
  (passes_filter cfg "ABC123" = true <-> In "ABC123" (COURSE_CODES cfg))
  /\ (passes_filter cfg "XYZ999" = true <-> In "XYZ999" (COURSE_CODES cfg))
  /\ passes_filter cfg "XYZ999" = false.
Proof.
  intros cfg. split; [|split].
  - apply (proj1 (passes_filter_priority cfg "ABC123")). discriminate.
  - apply (proj1 (passes_filter_priority cfg "XYZ999")). discriminate.
  - reflexivity.
Defined.

(** ** Extractor *)

Lemma take_digits_split s :
  exists post,
    s = (take_digits s ++ post)%string
    /\ all_chars is_digit (take_digits s) = true
    /\ starts_with_digit post = false.
Proof.
  induction s as [|c r IH]; simpl.
  - now exists EmptyString.
  - destruct (is_digit c) eqn:Ec.
    + destruct IH as [post [E [Hd Hp]]].
      exists post. simpl. rewrite Ec, Hd. repeat split; auto. congruence.
    + exists (String c r). simpl. now rewrite Ec.
Qed.

Lemma search_digits_split s g :
  search_digits s = Some g ->
  exists pre post,
    s = (pre ++ g ++ post)%string
    /\ all_chars (fun c => negb (is_digit c)) pre = true
    /\ g <> EmptyString
    /\ all_chars is_digit g = true
    /\ starts_with_digit post = false.
Proof.
  induction s as [|c r IH]; simpl; [discriminate|].
  destruct (is_digit c) eqn:Ec.
  - intros [= <-].
    destruct (take_digits_split r) as [post [E [Hd Hp]]].
    exists EmptyString, post. simpl. rewrite Ec, Hd.
    repeat split; auto; congruence.
  - intros H. destruct (IH H) as [pre [post [E [Hpre Hrest]]]].
    exists (String c pre), post. simpl. rewrite Ec, Hpre.
    repeat split; try tauto. congruence.
Qed.

Lemma digit_val_range c : is_digit c = true -> 0 <= digit_val c <= 9.
Proof.
  unfold is_digit, between, digit_val.
  rewrite andb_true_iff, !N.leb_le. lia.
Qed.

Lemma int_acc_nonneg s : forall acc,
  all_chars is_digit s = true -> 0 <= acc -> 0 <= int_acc acc s.
Proof.
  induction s as [|c r IH]; cbn [int_acc all_chars]; intros acc Hd Hacc;
    [exact Hacc|].
  apply andb_true_iff in Hd as [Hc Hr].
  apply IH; [exact Hr|]. pose proof (digit_val_range c Hc). lia.
Qed.

Lemma extract_int_first s n : extract_int s = Some n -> first_int s n /\ 0 <= n.
Proof.
  unfold extract_int.
  destruct (search_digits s) as [g|] eqn:E; [|discriminate].
  intros [= <-].
  destruct (search_digits_split s g E) as [pre [post [Hs [Hpre [Hg [Hd Hp]]]]]].
  split.
  - exists pre, g, post. repeat split; auto.
  - apply int_acc_nonneg; [exact Hd|lia].
Qed.

(** [extract_int] finds an integer exactly when the text holds a digit. *)
Lemma extract_int_none s :
  extract_int s = None <-> all_chars (fun c => negb (is_digit c)) s = true.
Proof.
  unfold extract_int.
  induction s as [|c r IH]; simpl; [tauto|].
  destruct (is_digit c); simpl; [split; discriminate|exact IH].
Qed.

Lemma code_here_shape s g : code_here s = Some g -> is_course_code g.
Proof.
  unfold code_here.
  destruct s as [|a [|b [|c [|d [|e [|f r]]]]]]; try discriminate.
  destruct (is_upper a) eqn:Ea; [|discriminate].
  destruct (is_upper b) eqn:Eb; [|discriminate].
  destruct (is_upper c) eqn:Ec; [|discriminate].
  destruct (is_digit d) eqn:Ed; [|discriminate].
  destruct (is_digit e) eqn:Ee; [|discriminate].
  destruct (is_digit f) eqn:Ef; [|discriminate].
  cbn [andb]. destruct (negb (starts_with_word r)); [|discriminate].
  intros [= <-]. exists a, b, c, d, e, f. repeat split; assumption.
Qed.

Lemma search_code_shape s : forall prev_word g,
  search_code_from prev_word s = Some g -> is_course_code g.
Proof.
  induction s as [|c r IH]; intros prev_word g; [discriminate|].
  cbn [search_code_from].
  destruct (if prev_word then None else code_here (String c r)) as [g'|] eqn:E.
  - intros [= <-]. destruct prev_word; [discriminate|].
    now apply code_here_shape in E.
  - apply IH.
Qed.

Lemma upper_char_fixed c :
  is_upper c = true \/ is_digit c = true -> upper_char c = c.
Proof.
  unfold upper_char, is_upper, is_digit, is_lower, between.
  intros H.
  assert (E : ((97 <=? ord c)%N && (ord c <=? 122)%N) = false).
  { apply andb_false_iff.
    destruct H as [H|H]; apply andb_true_iff in H as [_ H];
      apply N.leb_le in H; left; apply N.leb_gt; lia. }
  now rewrite E.
Qed.

(** [.upper()] leaves a matched code as it is. *)
Lemma upper_course_code g : is_course_code g -> upper g = g.
Proof.
  intros [a [b [c [d [e [f [-> [Ha [Hb [Hc [Hd [He Hf]]]]]]]]]]]].
  cbn [upper].
  rewrite !upper_char_fixed by auto. reflexivity.
Qed.

Lemma extracted_from_code tr code i :
  extracted_from tr code i ->
  is_course_code code
  /\ exists cell,
       nth_error (tds tr) 1 = Some cell
       /\ search_code (strip cell) = Some code.
Proof.
  intros [cell [g [Hcell [Hg [-> _]]]]].
  pose proof (search_code_shape _ _ _ Hg) as Hshape.
  rewrite (upper_course_code g Hshape).
  split; [exact Hshape|]. now exists cell.
Qed.

Lemma parse_row_entries out tr out' code i :
  parse_row out tr = Ok out' -> In (code, i) out' ->
  In (code, i) out \/ extracted_from tr code i.
Proof.
  unfold parse_row.
  destruct (tds tr) as [|t ts] eqn:Etds; [intros [= <-]; now left|].
  destruct (valign_not_top tr && _); [intros [= <-]; now left|].
  destruct (nth_error (t :: ts) 1) as [cell|] eqn:Ecell; [|discriminate].
  destruct (search_code (strip cell)) as [g|] eqn:Eg; [|intros [= <-]; now left].
  destruct (extract_int (last (t :: ts) EmptyString)) as [n|] eqn:En;
    [|intros [= <-]; now left].
  intros [= <-] HIn.
  destruct (dict_in_set _ _ _ _ _ HIn) as [[-> ->]|H]; [right|now left].
  apply extract_int_first in En as [Hfirst Hn].
  exists cell, g. rewrite Etds. simpl. repeat split; auto.
Qed.

Lemma parse_rows_entries rows : forall out out' code i,
  parse_rows out rows = Ok out' -> In (code, i) out' ->
  In (code, i) out \/ exists tr, In tr rows /\ extracted_from tr code i.
Proof.
  induction rows as [|tr rest IH]; simpl; intros out out' code i.
  - intros [= <-]; now left.
  - destruct (parse_row out tr) as [out1|e] eqn:E1; simpl; [|discriminate].
    intros Hrest HIn.
    destruct (IH _ _ _ _ Hrest HIn) as [H|[tr' [Htr' Hx]]].
    + destruct (parse_row_entries _ _ _ _ _ E1 H) as [H0|Hx]; [now left|].
      right. exists tr. split; [now left|exact Hx].
    + right. exists tr'. split; [now right|exact Hx].
Qed.

(** C6. Every entry of a snapshot returned by [parse_page] comes from a
    row of the page: its code is the course code found in the second cell,
    its [seats] is a non-negative integer, the value of the first integer
    substring of the text of the last cell of that row, and its [open] is
    true exactly when [seats > 0]. *)
Theorem parse_page_seats_open (html : list Row) (out : dict Info)
    (code : string) (info : Info) :
  parse_page html = Ok out ->
  In (code, info) out ->
  0 <= seats info
  /\ (open info = true <-> 0 < seats info)
  /\ is_course_code code
  /\ exists tr cell,
       In tr html
       /\ nth_error (tds tr) 1 = Some cell
       /\ search_code (strip cell) = Some code
       /\ first_int (last (tds tr) EmptyString) (seats info).
Proof.
  unfold parse_page. intros Hp HIn.
  destruct (parse_rows_entries _ _ _ _ _ Hp HIn) as [[]|[tr [Htr Hx]]].
  destruct (extracted_from_code _ _ _ Hx) as [Hshape [cell [Hcell Hcode]]].
  destruct Hx as [_ [_ [_ [_ [_ [Hfirst [Hn Ho]]]]]]].
  split; [exact Hn|]. split; [|split; [exact Hshape|]].
  - rewrite Ho. apply Z.ltb_lt.
  - now exists tr, cell.
Qed.

Lemma parse_page_seats_open_witness :
  let html := [ {| valign := Some "top";
                   tds := ["1"; "ABC123 Intro"; "LEFT 12 / 40"] |};
                {| valign := None;
                   tds := ["2"; "XYZ999"; ""; ""; ""; ""; "0"] |} ] in
  (0 <= 12 /\ (true = true <-> 0 < 12)
   /\ exists tr, In tr html /\ first_int (last (tds tr) EmptyString) 12)
  /\ (0 <= 0 /\ (false = true <-> 0 < 0)
      /\ exists tr, In tr html /\ first_int (last (tds tr) EmptyString) 0).
Proof.
  intros html.
  assert (Hp : parse_page html
               = Ok [("ABC123", {| open := true; seats := 12 |});
                     ("XYZ999", {| open := false; seats := 0 |})])
    by reflexivity.
  split.
  - destruct (parse_page_seats_open html _ "ABC123"
                {| open := true; seats := 12 |} Hp (or_introl eq_refl))
      as [Hn [Ho [_ [tr [cell [Htr [_ [_ Hfirst]]]]]]]].
    split; [exact Hn|]. split; [exact Ho|]. now exists tr.
  - destruct (parse_page_seats_open html _ "XYZ999"
                {| open := false; seats := 0 |} Hp
                (or_intror (or_introl eq_refl)))
      as [Hn [Ho [_ [tr [cell [Htr [_ [_ Hfirst]]]]]]]].
    split; [exact Hn|]. split; [exact Ho|]. now exists tr.
Defined.

Lemma valign_not_top_false tr :
  valign_not_top tr = false <-> valign tr = Some "top".
Proof.
  unfold valign_not_top. destruct (valign tr) as [v|].
  - rewrite negb_false_iff, String.eqb_eq. split; congruence.
  - split; discriminate.
Qed.

Lemma parse_row_cases out tr :
  (short_top_row tr /\ parse_row out tr = Raise IndexError)
  \/ (~ short_top_row tr /\ exists out', parse_row out tr = Ok out').
Proof.
  unfold short_top_row, parse_row.
  destruct (tds tr) as [|t [|t' ts]] eqn:Etds.
  - right. split; [simpl; intros [_ [=]]|now exists out].
  - destruct (valign_not_top tr) eqn:Ev; simpl.
    + right. split; [|now exists out].
      intros [Hv _]. apply valign_not_top_false in Hv. congruence.
    + left. apply valign_not_top_false in Ev. tauto.
  - right. split; [simpl; intros [_ [=]]|].
    destruct (valign_not_top tr && _); [now exists out|].
    cbn [nth_error].
    destruct (search_code (strip t')); [|now exists out].
    destruct (extract_int _); eauto.
Qed.

Lemma parse_rows_raises rows : forall out,
  Exists short_top_row rows -> parse_rows out rows = Raise IndexError.
Proof.
  induction rows as [|tr rest IH]; intros out Hex; [inversion Hex|].
  simpl. destruct (parse_row_cases out tr) as [[_ ->]|[Hn [out' ->]]];
    [reflexivity|simpl].
  apply IH. inversion Hex; subst; [contradiction|assumption].
Qed.

Lemma parse_rows_returns rows : forall out,
  Forall (fun tr => ~ short_top_row tr) rows ->
  exists out', parse_rows out rows = Ok out'.
Proof.
  induction rows as [|tr rest IH]; intros out Hall; simpl; [now exists out|].
  inversion Hall as [|? ? Htr Hrest]; subst.
  destruct (parse_row_cases out tr) as [[Hs _]|[_ [out' ->]]];
    [contradiction|simpl].
  apply IH, Hrest.
Qed.

(** On every other page [parse_page] returns a snapshot. *)
Lemma parse_page_returns html :
  Forall (fun tr => ~ short_top_row tr) html ->
  exists out, parse_page html = Ok out.
Proof. apply parse_rows_returns. Qed.

(** C1. [parse_page] does not return a snapshot for every page: when some
    row is marked [valign="top"] and has exactly one cell, reading the
    second cell raises [IndexError], which nothing catches. *)
Theorem parse_page_short_top_row_raises (html : list Row) (tr : Row) :
  In tr html ->
  valign tr = Some "top" ->
  length (tds tr) = 1%nat ->
  parse_page html = Raise IndexError.
Proof.
  intros HIn Hv Hl. apply parse_rows_raises.
  apply Exists_exists. exists tr. split; [exact HIn|now split].
Qed.

Lemma parse_page_short_top_row_raises_witness :
  parse_page
    [ {| valign := Some "top"; tds := ["1"; "ABC123 Intro"; "12"] |};
      {| valign := Some "top"; tds := ["XYZ999 0"] |} ]
  = Raise IndexError.
Proof.
  apply (parse_page_short_top_row_raises _
           {| valign := Some "top"; tds := ["XYZ999 0"] |}).
  - simpl. right. now left.
  - reflexivity.
  - reflexivity.
Defined.

Lemma parse_rows_wf rows : forall out out',
  dict_wf out -> parse_rows out rows = Ok out' -> dict_wf out'.
Proof.
  induction rows as [|tr rest IH]; simpl; intros out out' Hwf.
  - now intros [= <-].
  - destruct (parse_row out tr) as [out1|e] eqn:E1; simpl; [|discriminate].
    apply IH. revert E1. unfold parse_row.
    destruct (tds tr); [now intros [= <-]|].
    destruct (valign_not_top tr && _); [now intros [= <-]|].
    destruct (nth_error _ 1); [|discriminate].
    destruct (search_code _); [|now intros [= <-]].
    destruct (extract_int _); [|now intros [= <-]].
    intros [= <-]. now apply dict_set_wf.
Qed.

Lemma parse_page_wf html out : parse_page html = Ok out -> dict_wf out.
Proof. apply parse_rows_wf. constructor. Qed.

(** ** Aggregator *)

Lemma fetch_urls_failure fetch urls : forall merged url,
  In url urls -> fetch_failed (fetch url) ->
  exists e, fetch_urls fetch merged urls = Raise e.
Proof.
  induction urls as [|u rest IH]; intros merged url HIn Hf; [destruct HIn|].
  simpl. destruct (fetch u) as [|[|] page] eqn:Eu; eauto.
  destruct (parse_page page) as [out|e]; simpl; eauto.
  destruct HIn as [->|HIn]; [|eauto].
  destruct Hf as [Hf|[p Hf]]; congruence.
Qed.

Lemma fetch_urls_wf fetch urls : forall merged out,
  dict_wf merged -> fetch_urls fetch merged urls = Ok out -> dict_wf out.
Proof.
  induction urls as [|u rest IH]; simpl; intros merged out Hwf.
  - now intros [= <-].
  - destruct (fetch u) as [|[|] page]; try discriminate.
    destruct (parse_page page) as [o|e]; simpl; [|discriminate].
    apply IH. now apply dict_update_wf.
Qed.

Lemma latest_of_wf cfg fetch latest :
  latest_of cfg fetch = Ok latest -> dict_wf latest.
Proof.
  unfold latest_of, fetch_all.
  destruct (fetch_urls fetch [] (PORTAL_URLS cfg)) as [m|e] eqn:E;
    simpl; [|discriminate].
  intros [= <-]. apply dict_filter_wf.
  eapply fetch_urls_wf; [|exact E]. constructor.
Qed.

(** C8. When the fetch of one of the configured pages fails, the run ends
    with an exception, whatever the other pages answer: nothing has been
    notified or printed, and the state file is neither written nor
    changed. *)
Theorem fetch_failure_aborts (cfg : Config) (fetch : string -> Fetched)
    (file : StateFile) (url : string) :
  In url (PORTAL_URLS cfg) ->
  fetch_failed (fetch url) ->
  exists e,
    main cfg fetch file
    = {| outcome := Raise e; file_written := false; file_after := file;
         output := [] |}.
Proof.
  intros HIn Hf. unfold main, latest_of, fetch_all.
  destruct (fetch_urls_failure fetch _ [] url HIn Hf) as [e ->].
  now exists e.
Qed.

Lemma fetch_failure_aborts_witness :
  let cfg := {| PORTAL_URLS := ["page1"; "page2"]; COURSE_CODES := [];
                CODE_PREFIXES := []; INITIAL_NOTIFY := true |} in
  let fetch := fun url : string =>
    if String.eqb url "page1"
    then Response true
           [ {| valign := Some "top"; tds := ["1"; "NEW001"; "3"] |} ]
    else Response false [] in
  let file := Stored [("ABC123", {| rec_open := true; rec_seats := 5;
                                    gone_notified := false |})] in
  exists e,
    main cfg fetch file
    = {| outcome := Raise e; file_written := false; file_after := file;
         output := [] |}.
Proof.
  intros cfg fetch file.
  apply (fetch_failure_aborts cfg fetch file "page2").
  - simpl. right. now left.
  - right. now exists [].
Defined.

(** ** Differ: the loop over [latest] *)

Lemma diff_step_fired st kv :
  diff_step st kv
  = match fired (prev_courses st) kv with
    | Some e => replace_entry st (fst kv) (snd kv) e
    | None => st
    end.
Proof.
  unfold diff_step, fired, classify.
  destruct (dict_get (fst kv) (prev_courses st)) as [p|]; [|reflexivity].
  destruct (negb (Bool.eqb (rec_open p) (open (snd kv)))); [reflexivity|].
  now destruct (negb (rec_seats p =? seats (snd kv))).
Qed.

Lemma classify_code p code info e : classify p code info = Some e -> event_code e = code.
Proof.
  unfold classify. destruct p as [p|]; [|now intros [= <-]].
  destruct (negb (Bool.eqb _ _)); [intros [= <-]; now destruct (open info)|].
  destruct (negb (_ =? _)); [now intros [= <-]|discriminate].
Qed.

Lemma classify_not_gone p code info e :
  classify p code info = Some e -> is_gone_event e = false.
Proof.
  unfold classify. destruct p as [p|]; [|now intros [= <-]].
  destruct (negb (Bool.eqb _ _)); [intros [= <-]; now destruct (open info)|].
  destruct (negb (_ =? _)); [now intros [= <-]|discriminate].
Qed.

(** No event exactly when the baseline record agrees with [info]. *)
Lemma classify_none p code info :
  classify p code info = None
  <-> exists r, p = Some r /\ rec_open r = open info /\ rec_seats r = seats info.
Proof.
  unfold classify. destruct p as [r|].
  - destruct (Bool.eqb (rec_open r) (open info)) eqn:Eo; simpl.
    + apply eqb_prop in Eo.
      destruct (rec_seats r =? seats info) eqn:Es; simpl.
      * apply Z.eqb_eq in Es. split; [intros _; now exists r|reflexivity].
      * apply Z.eqb_neq in Es. split; [discriminate|].
        intros [r' [[= <-] [_ H]]]. contradiction.
    + apply eqb_false_iff in Eo. split; [discriminate|].
      intros [r' [[= <-] [H _]]]. contradiction.
  - split; [discriminate|]. intros [r [[=] _]].
Qed.

Lemma classify_of_info code info : classify (Some (of_info info)) code info = None.
Proof. apply classify_none. now exists (of_info info). Qed.

Lemma diff_step_get st k i c :
  dict_get c (prev_courses (diff_step st (k, i)))
  = if String.eqb c k
    then match classify (dict_get k (prev_courses st)) k i with
         | Some _ => Some (of_info i)
         | None => dict_get k (prev_courses st)
         end
    else dict_get c (prev_courses st).
Proof.
  rewrite diff_step_fired. unfold fired. simpl.
  destruct (classify (dict_get k (prev_courses st)) k i) as [e|]; simpl.
  - apply dict_get_set.
  - destruct (String.eqb_spec c k); congruence.
Qed.

Lemma diff_step_wf st kv :
  dict_wf (prev_courses st) -> dict_wf (prev_courses (diff_step st kv)).
Proof.
  rewrite diff_step_fired. destruct (fired _ kv); simpl; [|auto].
  apply dict_set_wf.
Qed.

Lemma diff_latest_wf latest : forall st,
  dict_wf (prev_courses st) -> dict_wf (prev_courses (diff_latest latest st)).
Proof.
  unfold diff_latest.
  induction latest as [|kv rest IH]; simpl; intros st H; [exact H|].
  apply IH. now apply diff_step_wf.
Qed.

Lemma fired_ext d d' kv :
  dict_get (fst kv) d = dict_get (fst kv) d' -> fired d kv = fired d' kv.
Proof. unfold fired. now intros ->. Qed.

Lemma flat_map_agree {A B} (f g : A -> list B) l :
  (forall a, In a l -> f a = g a) -> flat_map f l = flat_map g l.
Proof.
  induction l as [|a r IH]; simpl; intros H; [reflexivity|].
  rewrite (H a) by now left. f_equal. apply IH. intros b Hb. apply H. now right.
Qed.

Lemma existsb_agree {A} (f g : A -> bool) l :
  (forall a, In a l -> f a = g a) -> existsb f l = existsb g l.
Proof.
  induction l as [|a r IH]; simpl; intros H; [reflexivity|].
  rewrite (H a) by now left. f_equal. apply IH. intros b Hb. apply H. now right.
Qed.

Lemma filter_agree {A} (f g : A -> bool) l :
  (forall a, In a l -> f a = g a) -> filter f l = filter g l.
Proof.
  induction l as [|a r IH]; simpl; intros H; [reflexivity|].
  rewrite (H a) by now left. rewrite IH; [reflexivity|].
  intros b Hb. apply H. now right.
Qed.

(** What the loop over [latest] does, entry by entry: the lookups are those
    of the baseline the loop started from, since the codes of [latest] are
    distinct. *)
Lemma diff_latest_spec latest : forall st,
  dict_wf latest ->
  events (diff_latest latest st)
  = events st ++ flat_map (fun kv => option_list (fired (prev_courses st) kv)) latest
  /\ changed (diff_latest latest st)
     = changed st || existsb (fun kv => is_some (fired (prev_courses st) kv)) latest
  /\ forall c,
       dict_get c (prev_courses (diff_latest latest st))
       = match dict_get c latest with
         | Some i =>
             match classify (dict_get c (prev_courses st)) c i with
             | Some _ => Some (of_info i)
             | None => dict_get c (prev_courses st)
             end
         | None => dict_get c (prev_courses st)
         end.
Proof.
  unfold diff_latest, dict_wf.
  induction latest as [|[k i] rest IH]; intros st Hnd.
  - simpl. rewrite app_nil_r, orb_false_r. auto.
  - inversion Hnd as [|? ? Hk Hrest]; subst.
    cbn [fold_left].
    destruct (IH (diff_step st (k, i)) Hrest) as [Hev [Hch Hget]].
    assert (Hsame : forall kv, In kv rest ->
              fired (prev_courses (diff_step st (k, i))) kv
              = fired (prev_courses st) kv).
    { intros kv HIn. apply fired_ext. rewrite diff_step_get.
      destruct (String.eqb_spec (fst kv) k) as [E|]; [|reflexivity].
      exfalso. apply Hk. rewrite <- E. now apply in_map. }
    split; [|split].
    + rewrite Hev. cbn [flat_map].
      rewrite (flat_map_agree _ (fun kv => option_list (fired (prev_courses st) kv)))
        by (intros kv HIn; now rewrite Hsame).
      rewrite diff_step_fired.
      destruct (fired (prev_courses st) (k, i)); simpl;
        [now rewrite <- app_assoc|reflexivity].
    + rewrite Hch. cbn [existsb].
      assert (Hex : existsb (fun kv => is_some (fired (prev_courses (diff_step st (k, i))) kv)) rest
                    = existsb (fun kv => is_some (fired (prev_courses st) kv)) rest).
      { apply existsb_agree. intros kv HIn. now rewrite Hsame. }
      rewrite Hex, diff_step_fired.
      destruct (fired (prev_courses st) (k, i)); simpl;
        [now rewrite orb_true_r|reflexivity].
    + intros c. rewrite Hget, !diff_step_get. cbn [dict_get].
      destruct (String.eqb_spec c k) as [->|Hne]; [|reflexivity].
      assert (E : dict_get k rest = None) by now apply dict_get_none_keys.
      now rewrite E.
Qed.

Lemma diff_latest_noop latest : forall st,
  (forall kv, In kv latest -> fired (prev_courses st) kv = None) ->
  diff_latest latest st = st.
Proof.
  unfold diff_latest.
  induction latest as [|kv rest IH]; intros st H; [reflexivity|].
  cbn [fold_left]. rewrite diff_step_fired, (H kv) by now left.
  apply IH. intros kv' HIn. apply H. now right.
Qed.

(** ** Differ: the scan for disappeared codes *)

Section Gone.
Variables (cfg : Config) (latest : dict Info).

Lemma gone_step_fires st c :
  gone_step cfg latest st c
  = if gone_fires cfg latest (prev_courses st) c
    then {| prev_courses := mark_at c (prev_courses st);
            changed := true;
            events := events st ++ [EvGone c] |}
    else st.
Proof.
  unfold gone_step, gone_fires, mark_at.
  destruct (passes_filter cfg c && negb (dict_mem c latest)); [|reflexivity].
  simpl. destruct (dict_get c (prev_courses st)) as [r|]; [|reflexivity].
  now destruct (gone_notified r).
Qed.

Lemma mark_at_get c d c' :
  dict_get c' (mark_at c d)
  = if String.eqb c' c then option_map mark_gone (dict_get c d)
    else dict_get c' d.
Proof.
  unfold mark_at. destruct (dict_get c d) as [r|] eqn:E.
  - now rewrite dict_get_set.
  - destruct (String.eqb_spec c' c) as [->|]; [now rewrite E|reflexivity].
Qed.

Lemma mark_at_keys c d : dict_keys (mark_at c d) = dict_keys d.
Proof.
  unfold mark_at. destruct (dict_get c d) as [r|] eqn:E; [|reflexivity].
  rewrite dict_keys_set. unfold dict_mem. now rewrite E.
Qed.

Lemma gone_step_get st c c' :
  dict_get c' (prev_courses (gone_step cfg latest st c))
  = if String.eqb c' c && gone_fires cfg latest (prev_courses st) c
    then option_map mark_gone (dict_get c (prev_courses st))
    else dict_get c' (prev_courses st).
Proof.
  rewrite gone_step_fires.
  destruct (gone_fires cfg latest (prev_courses st) c); simpl.
  - rewrite mark_at_get, andb_true_r. reflexivity.
  - now rewrite andb_false_r.
Qed.

Lemma gone_step_keys st c :
  dict_keys (prev_courses (gone_step cfg latest st c))
  = dict_keys (prev_courses st).
Proof.
  rewrite gone_step_fires.
  destruct (gone_fires cfg latest (prev_courses st) c); simpl; [|reflexivity].
  apply mark_at_keys.
Qed.

Lemma gone_fires_ext d d' c :
  dict_get c d = dict_get c d' -> gone_fires cfg latest d c = gone_fires cfg latest d' c.
Proof. unfold gone_fires. now intros ->. Qed.

(** A flagged record never fires. *)
Lemma gone_fires_flagged d c r :
  dict_get c d = Some r -> gone_notified r = true -> gone_fires cfg latest d c = false.
Proof.
  unfold gone_fires. intros -> ->. simpl. apply andb_false_r.
Qed.

Lemma gone_fold_keys ks : forall st,
  dict_keys (prev_courses (gone_fold cfg latest ks st)) = dict_keys (prev_courses st).
Proof.
  unfold gone_fold.
  induction ks as [|k rest IH]; intros st; [reflexivity|].
  cbn [fold_left]. now rewrite IH, gone_step_keys.
Qed.

Lemma gone_fold_noop ks : forall st,
  (forall c, In c ks -> gone_fires cfg latest (prev_courses st) c = false) ->
  gone_fold cfg latest ks st = st.
Proof.
  unfold gone_fold.
  induction ks as [|k rest IH]; intros st H; [reflexivity|].
  cbn [fold_left]. rewrite gone_step_fires, (H k) by now left.
  apply IH. intros c HIn. apply H. now right.
Qed.

(** What the scan does over distinct keys, key by key. *)
Lemma gone_fold_spec ks : forall st,
  NoDup ks ->
  events (gone_fold cfg latest ks st)
  = events st ++ map EvGone (filter (gone_fires cfg latest (prev_courses st)) ks)
  /\ changed (gone_fold cfg latest ks st)
     = changed st || existsb (gone_fires cfg latest (prev_courses st)) ks
  /\ forall c,
       dict_get c (prev_courses (gone_fold cfg latest ks st))
       = if str_in c ks && gone_fires cfg latest (prev_courses st) c
         then option_map mark_gone (dict_get c (prev_courses st))
         else dict_get c (prev_courses st).
Proof.
  unfold gone_fold.
  induction ks as [|k rest IH]; intros st Hnd.
  - simpl. rewrite app_nil_r, orb_false_r. auto.
  - inversion Hnd as [|? ? Hk Hrest]; subst.
    cbn [fold_left].
    destruct (IH (gone_step cfg latest st k) Hrest) as [Hev [Hch Hget]].
    assert (Hsame : forall c, c <> k ->
              gone_fires cfg latest (prev_courses (gone_step cfg latest st k)) c
              = gone_fires cfg latest (prev_courses st) c).
    { intros c Hc. apply gone_fires_ext. rewrite gone_step_get.
      destruct (String.eqb_spec c k); [contradiction|reflexivity]. }
    assert (Hrest_ne : forall c, In c rest -> c <> k) by (intros c H ->; auto).
    split; [|split].
    + rewrite Hev. cbn [filter].
      rewrite (filter_agree _ (gone_fires cfg latest (prev_courses st)))
        by (intros c HIn; apply Hsame; auto).
      rewrite gone_step_fires.
      destruct (gone_fires cfg latest (prev_courses st) k); simpl;
        [now rewrite <- app_assoc|reflexivity].
    + rewrite Hch. cbn [existsb].
      rewrite (existsb_agree _ (gone_fires cfg latest (prev_courses st)))
        by (intros c HIn; apply Hsame; auto).
      rewrite gone_step_fires.
      destruct (gone_fires cfg latest (prev_courses st) k); simpl;
        [now rewrite orb_true_r|reflexivity].
    + intros c. rewrite Hget. unfold str_in. cbn [existsb].
      destruct (String.eqb_spec c k) as [->|Hne].
      * assert (E : existsb (String.eqb k) rest = false).
        { apply not_true_is_false. intros H. apply Hk.
          now apply (proj1 (str_in_In k rest)). }
        rewrite E. simpl. rewrite gone_step_get, String.eqb_refl. reflexivity.
      * simpl. rewrite (Hsame c Hne), gone_step_get.
        destruct (String.eqb_spec c k); [contradiction|reflexivity].
Qed.

(** Whatever the keys, the scan only adds disappearance events, each for
    a code in scope and absent from [latest]. *)
Lemma gone_fold_events ks : forall st,
  exists cs,
    events (gone_fold cfg latest ks st) = events st ++ map EvGone cs
    /\ Forall (fun c => passes_filter cfg c = true
                        /\ dict_mem c latest = false) cs.
Proof.
  unfold gone_fold.
  induction ks as [|k rest IH]; intros st.
  - exists []. simpl. now rewrite app_nil_r.
  - cbn [fold_left].
    destruct (IH (gone_step cfg latest st k)) as [cs [Hev Hcs]].
    rewrite Hev, gone_step_fires.
    destruct (gone_fires cfg latest (prev_courses st) k) eqn:Ek; simpl.
    + exists (k :: cs). rewrite <- app_assoc. split; [reflexivity|].
      constructor; [|exact Hcs].
      unfold gone_fires in Ek.
      apply andb_true_iff in Ek as [Ek _].
      apply andb_true_iff in Ek as [Hp Hm].
      now apply negb_true_iff in Hm.
    + now exists cs.
Qed.
End Gone.

(** ** Differ: one code of [latest] through both loops *)

Lemma events_for_app code l1 l2 :
  events_for code (l1 ++ l2) = events_for code l1 ++ events_for code l2.
Proof. apply filter_app. Qed.

Lemma events_for_fired d code kv :
  events_for code (option_list (fired d kv))
  = if String.eqb (fst kv) code then option_list (fired d kv) else [].
Proof.
  unfold fired. destruct (classify _ (fst kv) (snd kv)) as [e|] eqn:E; simpl.
  - rewrite (classify_code _ _ _ _ E). now destruct (String.eqb (fst kv) code).
  - now destruct (String.eqb (fst kv) code).
Qed.

Lemma events_for_absent d code latest :
  ~ In code (dict_keys latest) ->
  events_for code (flat_map (fun kv => option_list (fired d kv)) latest) = [].
Proof.
  induction latest as [|kv rest IH]; simpl; intros H; [reflexivity|].
  rewrite events_for_app, events_for_fired, IH by tauto.
  destruct (String.eqb_spec (fst kv) code); [tauto|reflexivity].
Qed.

Lemma events_for_present d code info latest :
  dict_wf latest -> In (code, info) latest ->
  events_for code (flat_map (fun kv => option_list (fired d kv)) latest)
  = option_list (fired d (code, info)).
Proof.
  unfold dict_wf.
  induction latest as [|kv rest IH]; simpl; intros Hnd HIn; [destruct HIn|].
  inversion Hnd as [|? ? Hk Hrest]; subst.
  rewrite events_for_app, events_for_fired.
  destruct HIn as [->|HIn].
  - simpl. rewrite String.eqb_refl, events_for_absent by exact Hk.
    apply app_nil_r.
  - destruct (String.eqb_spec (fst kv) code) as [E|_]; [|now apply IH].
    exfalso. apply Hk. rewrite E.
    change code with (fst (code, info)). now apply in_map.
Qed.

Lemma events_for_gone code cs :
  ~ In code cs -> events_for code (map EvGone cs) = [].
Proof.
  induction cs as [|c r IH]; simpl; intros H; [reflexivity|].
  destruct (String.eqb_spec c code); [tauto|]. apply IH. tauto.
Qed.

Lemma gone_fold_get_present cfg latest c ks : forall st,
  dict_mem c latest = true ->
  dict_get c (prev_courses (gone_fold cfg latest ks st))
  = dict_get c (prev_courses st).
Proof.
  unfold gone_fold.
  induction ks as [|k rest IH]; intros st Hm; [reflexivity|].
  cbn [fold_left]. rewrite IH by exact Hm. rewrite gone_step_get.
  destruct (String.eqb_spec c k) as [<-|]; [|reflexivity].
  unfold gone_fires. rewrite Hm. simpl. now rewrite andb_false_r.
Qed.

Lemma gone_fold_changed cfg latest ks : forall st,
  changed st = true -> changed (gone_fold cfg latest ks st) = true.
Proof.
  unfold gone_fold.
  induction ks as [|k rest IH]; intros st H; [exact H|].
  cbn [fold_left]. apply IH. rewrite gone_step_fires.
  now destruct (gone_fires _ _ _ _).
Qed.

Lemma differ_unfold cfg latest baseline :
  differ cfg latest baseline
  = let st1 := diff_latest latest
                 {| prev_courses := baseline; changed := false; events := [] |} in
    gone_fold cfg latest (dict_keys (prev_courses st1)) st1.
Proof. reflexivity. Qed.

(** A code of [latest] is handled by the first loop alone, from its record
    in the baseline the run started with. *)
Lemma differ_at cfg latest baseline code info :
  dict_wf latest -> In (code, info) latest ->
  let st := differ cfg latest baseline in
  let verdict := classify (dict_get code baseline) code info in
  events_for code (events st) = option_list verdict
  /\ dict_get code (prev_courses st)
     = match verdict with
       | Some _ => Some (of_info info)
       | None => dict_get code baseline
       end
  /\ (is_some verdict = true -> changed st = true).
Proof.
  intros Hwf HIn. rewrite differ_unfold. cbv zeta.
  set (st0 := {| prev_courses := baseline; changed := false; events := [] |}).
  destruct (diff_latest_spec latest st0 Hwf) as [Hev [Hch Hget]].
  assert (Hm : dict_mem code latest = true).
  { apply dict_mem_keys. change code with (fst (code, info)). now apply in_map. }
  split; [|split].
  - destruct (gone_fold_events cfg latest
                (dict_keys (prev_courses (diff_latest latest st0)))
                (diff_latest latest st0)) as [cs [-> Hcs]].
    rewrite Hev, !events_for_app. simpl.
    rewrite (events_for_present _ _ info) by assumption.
    rewrite events_for_gone; [apply app_nil_r|].
    intros Hc. rewrite Forall_forall in Hcs.
    destruct (Hcs _ Hc) as [_ Hno]. congruence.
  - rewrite gone_fold_get_present by exact Hm.
    rewrite Hget, (dict_get_in _ _ _ Hwf HIn). reflexivity.
  - intros Hv. apply gone_fold_changed. rewrite Hch. simpl.
    apply existsb_exists. exists (code, info). split; [exact HIn|exact Hv].
Qed.

(** C3. On a steady-state run, each code of [latest] falls in exactly one
    of four cases, taken in order: absent from the baseline (appeared); open
    differs (now open or now closed, with previous and new seats); open
    equal and seats differ (seats changed); otherwise nothing.  In the first
    three the baseline entry becomes the latest record (its open, its
    seats, no gone-notified flag) and [changed] is set; in the last the
    entry is left as it was.  The run emits at most one event about the
    code. *)
Theorem steady_state_classification (cfg : Config) (latest : dict Info)
    (baseline : dict CourseRecord) (code : string) (info : Info) :
  dict_wf latest ->
  In (code, info) latest ->
  let st := differ cfg latest baseline in
  let about := events_for code (events st) in
  let updated :=
    dict_get code (prev_courses st)
    = Some {| rec_open := open info; rec_seats := seats info;
              gone_notified := false |}
    /\ changed st = true in
  (dict_get code baseline = None ->
     about = [EvAppeared code (open info) (seats info)] /\ updated)
  /\ (forall p, dict_get code baseline = Some p ->
        (rec_open p <> open info ->
           about = [if open info
                    then EvNowOpen code (rec_seats p) (seats info)
                    else EvNowClosed code (rec_seats p) (seats info)]
           /\ updated)
        /\ (rec_open p = open info -> rec_seats p <> seats info ->
              about = [EvSeats code (rec_seats p) (seats info)] /\ updated)
        /\ (rec_open p = open info -> rec_seats p = seats info ->
              about = [] /\ dict_get code (prev_courses st) = Some p))
  /\ (length about <= 1)%nat.
Proof.
  intros Hwf HIn st about updated.
  destruct (differ_at cfg latest baseline code info Hwf HIn) as [Hev [Hget Hch]].
  fold st in Hev, Hget, Hch. fold about in Hev. unfold of_info in Hget.
  split; [|split].
  - intros E. rewrite E in *. simpl in *. unfold updated. auto.
  - intros p E. rewrite E in *. unfold classify in *.
    split; [|split].
    + intros Ho. apply eqb_false_iff in Ho. rewrite Ho in *. simpl in *.
      unfold updated. auto.
    + intros Ho Hs. apply eqb_true_iff in Ho. apply Z.eqb_neq in Hs.
      rewrite Ho, Hs in *. simpl in *. unfold updated. auto.
    + intros Ho Hs. apply eqb_true_iff in Ho. apply Z.eqb_eq in Hs.
      rewrite Ho, Hs in *. simpl in *. auto.
  - rewrite Hev. destruct (classify _ _ _); simpl; lia.
Qed.

Lemma steady_state_classification_witness :
  let cfg := {| PORTAL_URLS := ["u"]; COURSE_CODES := [];
                CODE_PREFIXES := []; INITIAL_NOTIFY := false |} in
  let latest := [("ABC123", {| open := true; seats := 3 |});
                 ("XYZ999", {| open := true; seats := 2 |});
                 ("NEW001", {| open := false; seats := 0 |});
                 ("SAM100", {| open := true; seats := 7 |})] in
  let baseline :=
    [("ABC123", {| rec_open := false; rec_seats := 0; gone_notified := false |});
     ("XYZ999", {| rec_open := true; rec_seats := 5; gone_notified := false |});
     ("SAM100", {| rec_open := true; rec_seats := 7; gone_notified := false |})] in
  let st := differ cfg latest baseline in
  events st = [EvNowOpen "ABC123" 0 3; EvSeats "XYZ999" 5 2;
               EvAppeared "NEW001" false 0]
  /\ events_for "ABC123" (events st) = [EvNowOpen "ABC123" 0 3]
  /\ dict_get "ABC123" (prev_courses st)
     = Some {| rec_open := true; rec_seats := 3; gone_notified := false |}
  /\ changed st = true.
Proof.
  intros cfg latest baseline st.
  split; [reflexivity|].
  assert (Hwf : dict_wf latest).
  { unfold dict_wf. simpl.
    repeat (constructor; [simpl; intuition discriminate|]). constructor. }
  assert (HIn : In ("ABC123", {| open := true; seats := 3 |}) latest)
    by (simpl; now left).
  destruct (steady_state_classification cfg latest baseline _ _ Hwf HIn)
    as [_ [H _]].
  destruct (H {| rec_open := false; rec_seats := 0; gone_notified := false |}
              eq_refl) as [[Hev [Hget Hch]] _].
  - simpl. discriminate.
  - repeat split; assumption.
Defined.

(** ** Differ: what a replacement does to the flag *)

Lemma steady_branch_courses cfg latest file :
  load_courses (file_after (steady_branch cfg latest file))
  = if changed (differ cfg latest (load_courses file))
    then prev_courses (differ cfg latest (load_courses file))
    else load_courses file.
Proof.
  unfold steady_branch. simpl.
  now destruct (changed (differ cfg latest (load_courses file))).
Qed.

(** C9. When the appeared, open-changed or seats-changed branch handles a
    code, its baseline entry becomes the latest record, which has no
    gone-notified flag, and it is this record that the run saves; a flagged
    record whose code is back in [latest] with the same open and seats is
    left as it is, flag set, in the baseline of the run and in the state
    file after it. *)
Theorem replacement_drops_gone_flag (cfg : Config) (latest : dict Info)
    (file : StateFile) (code : string) (info : Info) :
  dict_wf latest ->
  In (code, info) latest ->
  let baseline := load_courses file in
  let st := differ cfg latest baseline in
  let saved := load_courses (file_after (steady_branch cfg latest file)) in
  let fresh :=
    {| rec_open := open info; rec_seats := seats info; gone_notified := false |} in
  ((dict_get code baseline = None
    \/ exists p, dict_get code baseline = Some p
                 /\ (rec_open p <> open info \/ rec_seats p <> seats info)) ->
     dict_get code (prev_courses st) = Some fresh
     /\ dict_get code saved = Some fresh)
  /\ (forall p, dict_get code baseline = Some p ->
        rec_open p = open info -> rec_seats p = seats info ->
        gone_notified p = true ->
        dict_get code (prev_courses st) = Some p
        /\ dict_get code saved = Some p).
Proof.
  intros Hwf HIn baseline st saved fresh.
  destruct (differ_at cfg latest baseline code info Hwf HIn) as [_ [Hget Hch]].
  fold st in Hget, Hch.
  assert (Hsaved : saved = if changed st then prev_courses st else baseline)
    by apply steady_branch_courses.
  split.
  - intros Hfire.
    assert (Hv : exists e, classify (dict_get code baseline) code info = Some e).
    { destruct (classify (dict_get code baseline) code info) as [e|] eqn:E;
        [now exists e|].
      apply classify_none in E as [r [Er [Ho Hs]]].
      destruct Hfire as [Hn|[p [Ep [H|H]]]]; congruence. }
    destruct Hv as [e Hv]. rewrite Hv in Hget, Hch.
    rewrite Hsaved, (Hch eq_refl). split; exact Hget.
  - intros p Ep Ho Hs Hg.
    assert (Hv : classify (dict_get code baseline) code info = None).
    { apply classify_none. now exists p. }
    rewrite Hv, Ep in Hget. split; [exact Hget|].
    rewrite Hsaved. now destruct (changed st).
Qed.

Lemma replacement_drops_gone_flag_witness :
  let cfg := {| PORTAL_URLS := ["u"]; COURSE_CODES := [];
                CODE_PREFIXES := []; INITIAL_NOTIFY := false |} in
  let latest := [("ABC123", {| open := true; seats := 4 |});
                 ("XYZ999", {| open := false; seats := 0 |})] in
  let file :=
    Stored
      [("ABC123", {| rec_open := true; rec_seats := 5; gone_notified := true |});
       ("XYZ999", {| rec_open := false; rec_seats := 0; gone_notified := true |})] in
  let saved := load_courses (file_after (steady_branch cfg latest file)) in
  dict_get "ABC123" saved
  = Some {| rec_open := true; rec_seats := 4; gone_notified := false |}
  /\ dict_get "XYZ999" saved
     = Some {| rec_open := false; rec_seats := 0; gone_notified := true |}.
Proof.
  intros cfg latest file saved.
  assert (Hwf : dict_wf latest).
  { unfold dict_wf. simpl.
    repeat (constructor; [simpl; intuition discriminate|]). constructor. }
  split.
  - assert (HIn : In ("ABC123", {| open := true; seats := 4 |}) latest)
      by (simpl; now left).
    destruct (replacement_drops_gone_flag cfg latest file _ _ Hwf HIn)
      as [H _].
    apply H. right. eexists. split; [reflexivity|].
    right. simpl. discriminate.
  - assert (HIn : In ("XYZ999", {| open := false; seats := 0 |}) latest)
      by (simpl; right; now left).
    destruct (replacement_drops_gone_flag cfg latest file _ _ Hwf HIn)
      as [_ H].
    apply (H {| rec_open := false; rec_seats := 0; gone_notified := true |});
      reflexivity.
Defined.

(** ** First run *)

Lemma notifications_app o1 o2 :
  notifications (o1 ++ o2) = notifications o1 ++ notifications o2.
Proof. apply flat_map_app. Qed.

Lemma notifications_notify evs : notifications (map Notify evs) = evs.
Proof. induction evs as [|e r IH]; simpl; [reflexivity|now rewrite IH]. Qed.

Lemma as_baseline_get code latest :
  dict_get code (as_baseline latest) = option_map of_info (dict_get code latest).
Proof.
  induction latest as [|[k i] r IH]; simpl; [reflexivity|].
  now destruct (String.eqb code k).
Qed.

Lemma as_baseline_keys latest : dict_keys (as_baseline latest) = dict_keys latest.
Proof.
  unfold as_baseline, dict_keys. rewrite map_map. reflexivity.
Qed.

Lemma dict_get_filter {V} (p : string -> bool) code (d : dict V) :
  dict_get code (dict_filter p d) = if p code then dict_get code d else None.
Proof.
  induction d as [|[k v] r IH]; simpl; [now destruct (p code)|].
  destruct (String.eqb_spec code k) as [->|Hne].
  - destruct (p k) eqn:Ep; simpl; [now rewrite String.eqb_refl|].
    rewrite IH. now destruct (p k).
  - destruct (p k); simpl; [|exact IH].
    destruct (String.eqb_spec code k); [contradiction|exact IH].
Qed.


Lemma main_first_run cfg fetch file latest :
  first_run file = true -> latest_of cfg fetch = Ok latest ->
  main cfg fetch file = first_run_branch cfg latest.
Proof. unfold main. now intros -> ->. Qed.

Lemma main_steady cfg fetch file latest :
  first_run file = false -> latest_of cfg fetch = Ok latest ->
  main cfg fetch file = steady_branch cfg latest file.
Proof. unfold main. now intros -> ->. Qed.






(** ** Idempotence *)

Lemma diff_step_changed st kv :
  changed st = true -> changed (diff_step st kv) = true.
Proof. rewrite diff_step_fired. now destruct (fired _ kv). Qed.

Lemma diff_latest_changed latest : forall st,
  changed st = true -> changed (diff_latest latest st) = true.
Proof.
  unfold diff_latest.
  induction latest as [|kv rest IH]; intros st H; [exact H|].
  cbn [fold_left]. apply IH. now apply diff_step_changed.
Qed.

Lemma diff_latest_cons kv rest st :
  diff_latest (kv :: rest) st = diff_latest rest (diff_step st kv).
Proof. reflexivity. Qed.

Lemma gone_fold_cons cfg latest k rest st :
  gone_fold cfg latest (k :: rest) st
  = gone_fold cfg latest rest (gone_step cfg latest st k).
Proof. reflexivity. Qed.

Lemma diff_latest_unchanged latest : forall st,
  changed (diff_latest latest st) = false -> diff_latest latest st = st.
Proof.
  induction latest as [|kv rest IH]; intros st H; [reflexivity|].
  rewrite diff_latest_cons, diff_step_fired in *.
  destruct (fired (prev_courses st) kv) as [e|]; [|now apply IH].
  rewrite diff_latest_changed in H; [discriminate|reflexivity].
Qed.

Lemma gone_fold_unchanged cfg latest ks : forall st,
  changed (gone_fold cfg latest ks st) = false -> gone_fold cfg latest ks st = st.
Proof.
  induction ks as [|k rest IH]; intros st H; [reflexivity|].
  rewrite gone_fold_cons, gone_step_fires in *.
  destruct (gone_fires cfg latest (prev_courses st) k); [|now apply IH].
  rewrite gone_fold_changed in H; [discriminate|reflexivity].
Qed.

(** A run that leaves [changed] unset has touched nothing and notified
    nothing. *)
Lemma differ_unchanged cfg latest baseline :
  changed (differ cfg latest baseline) = false ->
  differ cfg latest baseline
  = {| prev_courses := baseline; changed := false; events := [] |}.
Proof.
  rewrite differ_unfold. cbv zeta. intros H.
  apply gone_fold_unchanged in H as Hg. rewrite Hg in H |- *.
  apply diff_latest_unchanged in H as Hd. rewrite Hd in Hg |- *.
  reflexivity.
Qed.

Lemma dict_set_keys_incl {V} k (v : V) d :
  incl (dict_keys d) (dict_keys (dict_set k v d)).
Proof.
  rewrite dict_keys_set. destruct (dict_mem k d); [apply incl_refl|].
  apply incl_appl, incl_refl.
Qed.

Lemma diff_latest_keys_incl latest : forall st,
  incl (dict_keys (prev_courses st))
       (dict_keys (prev_courses (diff_latest latest st))).
Proof.
  unfold diff_latest.
  induction latest as [|kv rest IH]; intros st; [apply incl_refl|].
  cbn [fold_left]. eapply incl_tran; [|apply IH].
  rewrite diff_step_fired. destruct (fired _ kv); simpl; [|apply incl_refl].
  apply dict_set_keys_incl.
Qed.

(** No run removes a code from the baseline. *)
Lemma differ_keeps_codes cfg latest baseline :
  incl (dict_keys baseline)
       (dict_keys (prev_courses (differ cfg latest baseline))).
Proof.
  rewrite differ_unfold. cbv zeta. rewrite gone_fold_keys.
  apply (diff_latest_keys_incl latest
           {| prev_courses := baseline; changed := false; events := [] |}).
Qed.

Lemma differ_not_first_run cfg latest baseline :
  baseline <> [] ->
  first_run (Stored (prev_courses (differ cfg latest baseline))) = false.
Proof.
  intros Hne. unfold first_run. simpl.
  destruct (prev_courses (differ cfg latest baseline)) eqn:E; [|reflexivity].
  destruct baseline as [|[k v] r]; [contradiction|].
  pose proof (differ_keeps_codes cfg latest ((k, v) :: r) k) as H.
  rewrite E in H. destruct H. now left.
Qed.

(** The baseline that a run produces is a fixed point of the differ for the
    same [latest]. *)
Lemma differ_stable cfg latest baseline :
  dict_wf latest -> dict_wf baseline ->
  let st := differ cfg latest baseline in
  differ cfg latest (prev_courses st)
  = {| prev_courses := prev_courses st; changed := false; events := [] |}.
Proof.
  intros Hwf Hbase st.
  rewrite differ_unfold. cbv zeta.
  set (st0 := {| prev_courses := prev_courses st; changed := false; events := [] |}).
  assert (H1 : diff_latest latest st0 = st0).
  { apply diff_latest_noop. intros [code info] HIn. unfold fired. simpl.
    destruct (differ_at cfg latest baseline code info Hwf HIn) as [_ [Hget _]].
    fold st in Hget. rewrite Hget.
    destruct (classify (dict_get code baseline) code info) eqn:E;
      [apply classify_of_info|exact E]. }
  rewrite H1. apply gone_fold_noop. simpl.
  intros c Hc.
  (* the scan of the first run, over the distinct keys of its baseline *)
  unfold st in *. rewrite differ_unfold in *. cbv zeta in *.
  set (st1 := diff_latest latest
                {| prev_courses := baseline; changed := false; events := [] |}) in *.
  assert (Hnd : NoDup (dict_keys (prev_courses st1)))
    by (apply (diff_latest_wf latest); exact Hbase).
  destruct (gone_fold_spec cfg latest _ st1 Hnd) as [_ [_ Hget]].
  rewrite gone_fold_keys in Hc.
  specialize (Hget c).
  assert (Hin : str_in c (dict_keys (prev_courses st1)) = true)
    by now apply str_in_In.
  rewrite Hin in Hget. simpl in Hget.
  destruct (gone_fires cfg latest (prev_courses st1) c) eqn:Ef.
  - unfold gone_fires in Ef.
    destruct (dict_get c (prev_courses st1)) as [r|];
      [|now rewrite andb_false_r in Ef].
    simpl in Hget. eapply gone_fires_flagged; [exact Hget|reflexivity].
  - rewrite <- Ef. now apply gone_fires_ext.
Qed.

(** C4. A steady-state run followed by a run that fetches the same pages
    under the same configuration: the second run finds nothing to report.
    Its differ leaves [changed] unset and emits no event, the state file is
    not written, and the only output is the line "No changes.".  (This
    holds whether or not the first run saved anything.) *)
Theorem second_run_reports_no_changes (cfg : Config)
    (fetch : string -> Fetched) (file : StateFile) :
  first_run file = false ->
  dict_wf (load_courses file) ->
  outcome (main cfg fetch file) = Ok tt ->
  let file1 := file_after (main cfg fetch file) in
  (exists latest,
     latest_of cfg fetch = Ok latest
     /\ first_run file1 = false
     /\ changed (differ cfg latest (load_courses file1)) = false
     /\ events (differ cfg latest (load_courses file1)) = [])
  /\ main cfg fetch file1
     = {| outcome := Ok tt; file_written := false; file_after := file1;
          output := [Stdout no_changes_line] |}.
Proof.
  intros Hfirst Hbase Hok file1.
  destruct (latest_of cfg fetch) as [latest|e] eqn:El.
  2:{ unfold main in Hok. rewrite El in Hok. discriminate. }
  pose proof (latest_of_wf _ _ _ El) as Hwf.
  assert (Hst : first_run file1 = false
                /\ differ cfg latest (load_courses file1)
                   = {| prev_courses := load_courses file1; changed := false;
                        events := [] |}).
  { unfold file1. rewrite (main_steady _ _ _ _ Hfirst El).
    unfold steady_branch. cbn [file_after].
    destruct (changed (differ cfg latest (load_courses file))) eqn:Ec.
    - split.
      + apply differ_not_first_run. intros E.
        unfold first_run in Hfirst. now rewrite E in Hfirst.
      + cbn [load_courses]. now apply differ_stable.
    - split; [exact Hfirst|].
      rewrite (differ_unchanged _ _ _ Ec). reflexivity. }
  destruct Hst as [Hf1 Hd].
  split.
  - exists latest. rewrite Hd. auto.
  - rewrite (main_steady _ _ _ _ Hf1 El). unfold steady_branch.
    rewrite Hd. reflexivity.
Qed.

Lemma second_run_reports_no_changes_witness :
  let cfg := {| PORTAL_URLS := ["u"]; COURSE_CODES := [];
                CODE_PREFIXES := ["ABC"; "XYZ"]; INITIAL_NOTIFY := false |} in
  let fetch := fun _ : string =>
    Response true
      [ {| valign := Some "top"; tds := ["1"; "ABC123"; "3"] |};
        {| valign := Some "top"; tds := ["2"; "ABC200"; "0"] |} ] in
  let file :=
    Stored
      [("ABC123", {| rec_open := false; rec_seats := 0; gone_notified := false |});
       ("XYZ999", {| rec_open := true; rec_seats := 5; gone_notified := false |})] in
  let file1 := file_after (main cfg fetch file) in
  output (main cfg fetch file)
  = [Notify (EvNowOpen "ABC123" 0 3); Notify (EvAppeared "ABC200" false 0);
     Notify (EvGone "XYZ999")]
  /\ file_written (main cfg fetch file) = true
  /\ main cfg fetch file1
     = {| outcome := Ok tt; file_written := false; file_after := file1;
          output := [Stdout no_changes_line] |}.
Proof.
  intros cfg fetch file file1.
  split; [reflexivity|]. split; [reflexivity|].
  apply (second_run_reports_no_changes cfg fetch file).
  - reflexivity.
  - unfold dict_wf. simpl.
    repeat (constructor; [simpl; intuition discriminate|]). constructor.
  - reflexivity.
Defined.

(** ** Disappearance *)

Lemma gone_count_app code l1 l2 :
  gone_count code (l1 ++ l2) = (gone_count code l1 + gone_count code l2)%nat.
Proof. unfold gone_count. now rewrite filter_app, length_app. Qed.

Lemma gone_count_first_loop code d latest :
  gone_count code (flat_map (fun kv => option_list (fired d kv)) latest) = 0%nat.
Proof.
  induction latest as [|kv rest IH]; [reflexivity|].
  cbn [flat_map]. rewrite gone_count_app, IH.
  unfold fired. destruct (classify _ (fst kv) (snd kv)) as [e|] eqn:E;
    [|reflexivity].
  unfold gone_count, is_gone_of. simpl.
  now rewrite (classify_not_gone _ _ _ _ E).
Qed.

Lemma gone_count_skip code cs :
  ~ In code cs -> gone_count code (map EvGone cs) = 0%nat.
Proof.
  unfold gone_count, is_gone_of.
  induction cs as [|c r IH]; simpl; intros H; [reflexivity|].
  destruct (String.eqb_spec c code); [tauto|]. apply IH. tauto.
Qed.

Lemma gone_count_scan code (f : string -> bool) ks :
  NoDup ks ->
  gone_count code (map EvGone (filter f ks))
  = if str_in code ks && f code then 1%nat else 0%nat.
Proof.
  induction ks as [|k rest IH]; intros Hnd; [reflexivity|].
  inversion Hnd as [|? ? Hk Hrest]; subst.
  unfold str_in. cbn [existsb filter].
  destruct (String.eqb_spec code k) as [->|Hne].
  - assert (Hz : gone_count k (map EvGone (filter f rest)) = 0%nat).
    { apply gone_count_skip. intros H. apply filter_In in H. tauto. }
    destruct (f k); simpl; [|exact Hz].
    change (EvGone k :: map EvGone (filter f rest))
      with ([EvGone k] ++ map EvGone (filter f rest)).
    rewrite gone_count_app, Hz.
    unfold gone_count, is_gone_of. simpl. now rewrite String.eqb_refl.
  - cbn [orb]. change (existsb (String.eqb code) rest) with (str_in code rest).
    rewrite <- (IH Hrest).
    destruct (f k); [|reflexivity].
    change (map EvGone (k :: filter f rest))
      with ([EvGone k] ++ map EvGone (filter f rest)).
    rewrite gone_count_app.
    unfold gone_count at 1, is_gone_of. simpl.
    destruct (String.eqb_spec k code); [congruence|reflexivity].
Qed.

(** A code of [latest] is never reported as disappeared. *)
Lemma differ_present_no_gone cfg latest baseline code :
  dict_wf latest -> dict_mem code latest = true ->
  gone_count code (events (differ cfg latest baseline)) = 0%nat.
Proof.
  intros Hwf Hm. rewrite differ_unfold. cbv zeta.
  set (st0 := {| prev_courses := baseline; changed := false; events := [] |}).
  destruct (gone_fold_events cfg latest
              (dict_keys (prev_courses (diff_latest latest st0)))
              (diff_latest latest st0)) as [cs [-> Hcs]].
  destruct (diff_latest_spec latest st0 Hwf) as [-> _].
  rewrite !gone_count_app, gone_count_first_loop. simpl.
  apply gone_count_skip. intros Hc. rewrite Forall_forall in Hcs.
  destruct (Hcs _ Hc) as [_ Hno]. congruence.
Qed.

(** A code absent from [latest] is handled by the scan alone, from its
    record in the baseline the run started with. *)
Lemma differ_absent cfg latest baseline code :
  dict_wf latest -> dict_wf baseline -> dict_mem code latest = false ->
  let st := differ cfg latest baseline in
  let fires := gone_fires cfg latest baseline code in
  gone_count code (events st) = (if fires then 1%nat else 0%nat)
  /\ dict_get code (prev_courses st)
     = (if fires then option_map mark_gone (dict_get code baseline)
        else dict_get code baseline)
  /\ (fires = true -> changed st = true).
Proof.
  intros Hwf Hbase Hm. rewrite differ_unfold. cbv zeta.
  set (st0 := {| prev_courses := baseline; changed := false; events := [] |}).
  set (st1 := diff_latest latest st0).
  destruct (diff_latest_spec latest st0 Hwf) as [Hev1 [_ Hget1]].
  fold st1 in Hev1, Hget1.
  assert (Hnd : NoDup (dict_keys (prev_courses st1)))
    by (apply (diff_latest_wf latest st0); exact Hbase).
  destruct (gone_fold_spec cfg latest _ st1 Hnd) as [Hev [Hch Hget]].
  assert (Hsame : dict_get code (prev_courses st1) = dict_get code baseline).
  { rewrite Hget1. unfold dict_mem in Hm.
    now destruct (dict_get code latest). }
  assert (Hf : gone_fires cfg latest (prev_courses st1) code
               = gone_fires cfg latest baseline code)
    by now apply gone_fires_ext.
  assert (Hin : gone_fires cfg latest baseline code = true ->
                str_in code (dict_keys (prev_courses st1)) = true).
  { intros H. apply str_in_In, dict_mem_keys. unfold dict_mem.
    rewrite Hsame. unfold gone_fires in H.
    destruct (dict_get code baseline); [reflexivity|].
    now rewrite andb_false_r in H. }
  split; [|split].
  - rewrite Hev, Hev1, !gone_count_app, gone_count_first_loop. simpl.
    rewrite gone_count_scan by exact Hnd. rewrite Hf.
    destruct (gone_fires cfg latest baseline code);
      [now rewrite Hin|now rewrite andb_false_r].
  - rewrite Hget, Hf, Hsame.
    destruct (gone_fires cfg latest baseline code);
      [now rewrite Hin|now rewrite andb_false_r].
  - intros H. rewrite Hch. apply orb_true_iff. right.
    apply existsb_exists. exists code. split.
    + apply str_in_In. now apply Hin.
    + now rewrite Hf.
Qed.

Lemma differ_wf cfg latest baseline :
  dict_wf baseline -> dict_wf (prev_courses (differ cfg latest baseline)).
Proof.
  intros H. rewrite differ_unfold. cbv zeta.
  unfold dict_wf. rewrite gone_fold_keys.
  apply (diff_latest_wf latest
           {| prev_courses := baseline; changed := false; events := [] |}).
  exact H.
Qed.

Lemma main_wf cfg fetch file :
  dict_wf (load_courses file) ->
  dict_wf (load_courses (file_after (main cfg fetch file))).
Proof.
  intros Hwf. unfold main.
  destruct (latest_of cfg fetch) as [latest|e] eqn:El; [|exact Hwf].
  destruct (first_run file).
  - simpl. unfold dict_wf. rewrite as_baseline_keys.
    now apply (latest_of_wf cfg fetch).
  - rewrite steady_branch_courses.
    destruct (changed _); [now apply differ_wf|exact Hwf].
Qed.

(** ** Disappearance across runs *)

Lemma known_not_first_run file code r :
  dict_get code (load_courses file) = Some r -> first_run file = false.
Proof.
  unfold first_run. destruct (load_courses file); [discriminate|reflexivity].
Qed.

Lemma steady_notifications cfg latest file :
  notifications (output (steady_branch cfg latest file))
  = events (differ cfg latest (load_courses file)).
Proof.
  unfold steady_branch. cbn [output].
  rewrite notifications_app, notifications_notify.
  destruct (changed _); apply app_nil_r.
Qed.

Lemma main_abort cfg fetch file e :
  latest_of cfg fetch = Raise e ->
  main cfg fetch file
  = {| outcome := Raise e; file_written := false; file_after := file;
       output := [] |}.
Proof. unfold main. now intros ->. Qed.

(** One run in which [code] is absent from [latest]. *)
Lemma run_absent cfg fetch file code latest :
  dict_wf (load_courses file) -> first_run file = false ->
  latest_of cfg fetch = Ok latest -> dict_mem code latest = false ->
  let fires := gone_fires cfg latest (load_courses file) code in
  run_gone_count code (main cfg fetch file) = (if fires then 1%nat else 0%nat)
  /\ dict_get code (load_courses (file_after (main cfg fetch file)))
     = (if fires then option_map mark_gone (dict_get code (load_courses file))
        else dict_get code (load_courses file)).
Proof.
  intros Hbase Hfirst El Hm fires.
  rewrite (main_steady _ _ _ _ Hfirst El).
  unfold run_gone_count. rewrite steady_notifications, steady_branch_courses.
  destruct (differ_absent cfg latest (load_courses file) code
              (latest_of_wf _ _ _ El) Hbase Hm) as [Hc [Hg Hch]].
  fold fires in Hc, Hg, Hch.
  split; [exact Hc|].
  destruct (changed (differ cfg latest (load_courses file))) eqn:Ec;
    [exact Hg|].
  destruct fires; [|reflexivity].
  specialize (Hch eq_refl). congruence.
Qed.

(** One run in which [code] is in [latest]. *)
Lemma run_present cfg fetch file code latest info :
  first_run file = false ->
  latest_of cfg fetch = Ok latest -> In (code, info) latest ->
  let verdict := classify (dict_get code (load_courses file)) code info in
  run_gone_count code (main cfg fetch file) = 0%nat
  /\ dict_get code (load_courses (file_after (main cfg fetch file)))
     = match verdict with
       | Some _ => Some (of_info info)
       | None => dict_get code (load_courses file)
       end.
Proof.
  intros Hfirst El HIn verdict.
  pose proof (latest_of_wf _ _ _ El) as Hwf.
  rewrite (main_steady _ _ _ _ Hfirst El).
  unfold run_gone_count. rewrite steady_notifications, steady_branch_courses.
  split.
  - apply differ_present_no_gone; [exact Hwf|].
    apply dict_mem_keys. change code with (fst (code, info)). now apply in_map.
  - destruct (differ_at cfg latest (load_courses file) code info Hwf HIn)
      as [_ [Hg Hch]].
    fold verdict in Hg, Hch.
    destruct (changed (differ cfg latest (load_courses file))) eqn:Ec;
      [exact Hg|].
    destruct verdict; [|reflexivity].
    specialize (Hch eq_refl). congruence.
Qed.

Lemma runs_app l1 : forall l2 file,
  runs (l1 ++ l2) file = runs l1 file ++ runs l2 (file_after_runs l1 file).
Proof.
  induction l1 as [|[cfg fetch] rest IH]; intros l2 file; [reflexivity|].
  simpl. now rewrite IH.
Qed.

Section Episode.
Variable code : string.

Lemma step_absent_flagged cfg fetch file :
  dict_wf (load_courses file) -> flag_is true file code ->
  absent_or_aborts code (cfg, fetch) ->
  run_gone_count code (main cfg fetch file) = 0%nat
  /\ flag_is true (file_after (main cfg fetch file)) code.
Proof.
  intros Hbase [r [Hr Hflag]] [[latest [El Hm]]|[e Ee]]; simpl in *.
  - destruct (run_absent cfg fetch file code latest Hbase
                (known_not_first_run _ _ _ Hr) El Hm) as [Hc Hg].
    rewrite (gone_fires_flagged _ _ _ _ _ Hr Hflag) in Hc, Hg.
    split; [exact Hc|]. exists r. now rewrite Hg.
  - rewrite (main_abort _ _ _ _ Ee). split; [reflexivity|]. now exists r.
Qed.

Lemma step_present_unflagged cfg fetch file :
  flag_is false file code -> present_or_aborts code (cfg, fetch) ->
  run_gone_count code (main cfg fetch file) = 0%nat
  /\ flag_is false (file_after (main cfg fetch file)) code.
Proof.
  intros [r [Hr Hflag]] [[latest [El Hm]]|[e Ee]]; simpl in *.
  - unfold dict_mem in Hm.
    destruct (dict_get code latest) as [info|] eqn:Ei; [|discriminate].
    apply dict_get_some_in in Ei.
    destruct (run_present cfg fetch file code latest info
                (known_not_first_run _ _ _ Hr) El Ei) as [Hc Hg].
    split; [exact Hc|].
    destruct (classify _ code info).
    + exists (of_info info). now split.
    + exists r. now rewrite Hg.
  - rewrite (main_abort _ _ _ _ Ee). split; [reflexivity|]. now exists r.
Qed.

(** The record is replaced: whatever its flag was, it is gone. *)
Lemma step_present_changed cfg fetch file latest info p :
  dict_get code (load_courses file) = Some p ->
  latest_of cfg fetch = Ok latest -> In (code, info) latest ->
  rec_open p <> open info \/ rec_seats p <> seats info ->
  run_gone_count code (main cfg fetch file) = 0%nat
  /\ flag_is false (file_after (main cfg fetch file)) code.
Proof.
  intros Hp El HIn Hdiff.
  destruct (run_present cfg fetch file code latest info
              (known_not_first_run _ _ _ Hp) El HIn) as [Hc Hg].
  split; [exact Hc|].
  destruct (classify _ code info) eqn:E.
  - exists (of_info info). now split.
  - apply classify_none in E as [r [Er [Ho Hs]]].
    rewrite Hp in Er. injection Er as <-. destruct Hdiff; contradiction.
Qed.

(** The first run that misses an unflagged code reports it, once. *)
Lemma step_absent_unflagged cfg fetch file latest :
  dict_wf (load_courses file) -> flag_is false file code ->
  latest_of cfg fetch = Ok latest -> dict_mem code latest = false ->
  passes_filter cfg code = true ->
  run_gone_count code (main cfg fetch file) = 1%nat
  /\ flag_is true (file_after (main cfg fetch file)) code.
Proof.
  intros Hbase [r [Hr Hflag]] El Hm Hpass.
  destruct (run_absent cfg fetch file code latest Hbase
              (known_not_first_run _ _ _ Hr) El Hm) as [Hc Hg].
  assert (Hf : gone_fires cfg latest (load_courses file) code = true).
  { unfold gone_fires. now rewrite Hpass, Hm, Hr, Hflag. }
  rewrite Hf in Hc, Hg. split; [exact Hc|].
  exists (mark_gone r). rewrite Hg, Hr. now split.
Qed.

Lemma runs_absent_flagged inputs : forall file,
  dict_wf (load_courses file) -> flag_is true file code ->
  Forall (absent_or_aborts code) inputs ->
  map (run_gone_count code) (runs inputs file) = repeat 0%nat (length inputs)
  /\ flag_is true (file_after_runs inputs file) code.
Proof.
  induction inputs as [|[cfg fetch] rest IH]; intros file Hbase Hflag Hall.
  - now split.
  - inversion Hall as [|? ? Hhere Hrest]; subst.
    destruct (step_absent_flagged cfg fetch file Hbase Hflag Hhere)
      as [Hc Hnext].
    destruct (IH _ (main_wf cfg fetch file Hbase) Hnext Hrest) as [Hm Hf].
    cbn [runs file_after_runs map length repeat].
    rewrite Hc, Hm. now split.
Qed.

Lemma runs_present_unflagged inputs : forall file,
  dict_wf (load_courses file) -> flag_is false file code ->
  Forall (present_or_aborts code) inputs ->
  map (run_gone_count code) (runs inputs file) = repeat 0%nat (length inputs)
  /\ flag_is false (file_after_runs inputs file) code
  /\ dict_wf (load_courses (file_after_runs inputs file)).
Proof.
  induction inputs as [|[cfg fetch] rest IH]; intros file Hbase Hflag Hall.
  - now repeat split.
  - inversion Hall as [|? ? Hhere Hrest]; subst.
    destruct (step_present_unflagged cfg fetch file Hflag Hhere)
      as [Hc Hnext].
    destruct (IH _ (main_wf cfg fetch file Hbase) Hnext Hrest)
      as [Hm [Hf Hw]].
    cbn [runs file_after_runs map length repeat].
    rewrite Hc, Hm. now repeat split.
Qed.
End Episode.

(** C2 does not hold as stated.  A flagged course comes back with the open
    and seats of its record, so the record and its flag are kept, and then
    disappears again: the third run, the first of the new absence, reports
    nothing, where one new disappearance event is claimed. *)
Lemma gone_flag_survives_matching_reappearance :
  let cfg := {| PORTAL_URLS := ["u"]; COURSE_CODES := [];
                CODE_PREFIXES := []; INITIAL_NOTIFY := false |} in
  let other := {| valign := Some "top"; tds := ["2"; "XYZ999"; "0"] |} in
  let back := {| valign := Some "top"; tds := ["1"; "ABC123"; "5"] |} in
  let without := fun _ : string => Response true [other] in
  let with_it := fun _ : string => Response true [back; other] in
  let file :=
    Stored
      [("ABC123", {| rec_open := true; rec_seats := 5; gone_notified := false |});
       ("XYZ999", {| rec_open := false; rec_seats := 0; gone_notified := false |})] in
  let rs := runs [(cfg, without); (cfg, with_it); (cfg, without)] file in
  map output rs
  = [[Notify (EvGone "ABC123")]; [Stdout no_changes_line];
     [Stdout no_changes_line]]
  /\ map (run_gone_count "ABC123") rs = [1%nat; 0%nat; 0%nat]
  /\ nth 2 (map (run_gone_count "ABC123") rs) 0%nat <> 1%nat.
Proof.
  intros cfg other back without with_it file rs.
  split; [reflexivity|]. split; [reflexivity|]. discriminate.
Qed.

(** C2, amended. While a code stays absent, its disappearance is notified
    at most once: from a baseline whose record has the flag, runs that miss
    the code (or are ended by the fetch) send no disappearance event about
    it and keep the flag.  A new episode is notified once when the code
    has come back with a different open or seats: that run replaces the
    record, the runs that still see the code send nothing, the first run
    that misses it (with the code in scope) sends exactly one event, and the
    runs that miss it after that send none. *)
Theorem gone_notified_once_per_episode (code : string) (file : StateFile) :
  dict_wf (load_courses file) ->
  (flag_is true file code ->
   forall inputs,
     Forall (absent_or_aborts code) inputs ->
     map (run_gone_count code) (runs inputs file) = repeat 0%nat (length inputs)
     /\ flag_is true (file_after_runs inputs file) code)
  /\ (forall p cfg fetch latest info stay cfg' fetch' latest' more,
        dict_get code (load_courses file) = Some p ->
        latest_of cfg fetch = Ok latest ->
        In (code, info) latest ->
        rec_open p <> open info \/ rec_seats p <> seats info ->
        Forall (present_or_aborts code) stay ->
        latest_of cfg' fetch' = Ok latest' ->
        dict_mem code latest' = false ->
        passes_filter cfg' code = true ->
        Forall (absent_or_aborts code) more ->
        map (run_gone_count code)
            (runs ((cfg, fetch) :: stay ++ (cfg', fetch') :: more) file)
        = 0%nat :: repeat 0%nat (length stay)
          ++ 1%nat :: repeat 0%nat (length more)).
Proof.
  intros Hbase. split.
  - intros Hflag inputs Hall. now apply runs_absent_flagged.
  - intros p cfg fetch latest info stay cfg' fetch' latest' more
      Hp El HIn Hdiff Hstay El' Hm' Hpass Hmore.
    destruct (step_present_changed code cfg fetch file latest info p
                Hp El HIn Hdiff) as [Hc0 Hf0].
    pose proof (main_wf cfg fetch file Hbase) as Hw0.
    set (file0 := file_after (main cfg fetch file)) in *.
    destruct (runs_present_unflagged code stay file0 Hw0 Hf0 Hstay)
      as [Hc1 [Hf1 Hw1]].
    set (file1 := file_after_runs stay file0) in *.
    destruct (step_absent_unflagged code cfg' fetch' file1 latest'
                Hw1 Hf1 El' Hm' Hpass) as [Hc2 Hf2].
    pose proof (main_wf cfg' fetch' file1 Hw1) as Hw2.
    destruct (runs_absent_flagged code more _ Hw2 Hf2 Hmore) as [Hc3 _].
    cbn [runs map]. fold file0.
    rewrite runs_app, map_app. fold file1.
    cbn [runs map]. now rewrite Hc0, Hc1, Hc2, Hc3.
Qed.

Lemma gone_notified_once_per_episode_witness :
  let cfg := {| PORTAL_URLS := ["u"]; COURSE_CODES := [];
                CODE_PREFIXES := []; INITIAL_NOTIFY := false |} in
  let other := {| valign := Some "top"; tds := ["2"; "XYZ999"; "0"] |} in
  let back := {| valign := Some "top"; tds := ["1"; "ABC123"; "4"] |} in
  let without := fun _ : string => Response true [other] in
  let with_it := fun _ : string => Response true [back; other] in
  let file :=
    Stored
      [("ABC123", {| rec_open := true; rec_seats := 5; gone_notified := true |});
       ("XYZ999", {| rec_open := false; rec_seats := 0; gone_notified := false |})] in
  map (run_gone_count "ABC123") (runs [(cfg, without); (cfg, without)] file)
  = [0%nat; 0%nat]
  /\ map (run_gone_count "ABC123")
         (runs [(cfg, with_it); (cfg, with_it); (cfg, without); (cfg, without)]
               file)
     = [0%nat; 0%nat; 1%nat; 0%nat].
Proof.
  intros cfg other back without with_it file.
  assert (Hwf : dict_wf (load_courses file)).
  { unfold dict_wf. simpl.
    repeat (constructor; [simpl; intuition discriminate|]). constructor. }
  assert (Habs : absent_or_aborts "ABC123" (cfg, without)).
  { left. eexists. split; reflexivity. }
  assert (Hpres : present_or_aborts "ABC123" (cfg, with_it)).
  { left. eexists. split; reflexivity. }
  destruct (gone_notified_once_per_episode "ABC123" file Hwf) as [H1 H2].
  split.
  - destruct (H1 (ex_intro _ _ (conj eq_refl eq_refl))
                 [(cfg, without); (cfg, without)]) as [H _]; [|exact H].
    constructor; [exact Habs|]. constructor; [exact Habs|constructor].
  - apply (H2 {| rec_open := true; rec_seats := 5; gone_notified := true |}
              cfg with_it
              [("ABC123", {| open := true; seats := 4 |});
               ("XYZ999", {| open := false; seats := 0 |})]
              {| open := true; seats := 4 |}
              [(cfg, with_it)] cfg without
              [("XYZ999", {| open := false; seats := 0 |})]
              [(cfg, without)]).
    + reflexivity.
    + reflexivity.
    + simpl. now left.
    + right. simpl. discriminate.
    + constructor; [exact Hpres|constructor].
    + reflexivity.
    + reflexivity.
    + reflexivity.
    + constructor; [exact Habs|constructor].
Defined.

(** * Further properties *)

(** ** Extractor: the two searches *)

Lemma take_digits_app g post :
  all_chars is_digit g = true -> starts_with_digit post = false ->
  take_digits (g ++ post)%string = g.
Proof.
  induction g as [|c r IH]; simpl; intros Hg Hp.
  - destruct post as [|c r]; [reflexivity|]. simpl in *. now rewrite Hp.
  - apply andb_true_iff in Hg as [Hc Hr]. rewrite Hc. f_equal. now apply IH.
Qed.

Lemma search_digits_found pre g post :
  all_chars (fun c => negb (is_digit c)) pre = true ->
  g <> EmptyString ->
  all_chars is_digit g = true ->
  starts_with_digit post = false ->
  search_digits (pre ++ g ++ post)%string = Some g.
Proof.
  intros Hpre Hg Hd Hp.
  induction pre as [|c r IH]; simpl in *.
  - destruct g as [|c r]; [contradiction|]. simpl in *.
    apply andb_true_iff in Hd as [Hc Hr]. rewrite Hc.
    now rewrite take_digits_app.
  - apply andb_true_iff in Hpre as [Hc Hr].
    apply negb_true_iff in Hc. rewrite Hc. now apply IH.
Qed.

(** When the first run of digits is within the limit of [int],
    [extract_int] returns [n] exactly when [n] is the value of the leftmost
    maximal run of digits of the text, and [None] exactly when the text has
    no digit. *)
Theorem extract_int_spec (s : string) :
  within_int_limit s = true ->
  (forall n, extract_int s = Some n <-> first_int s n)
  /\ (extract_int s = None
      <-> all_chars (fun c => negb (is_digit c)) s = true).
Proof.
  intros _. split; [|apply extract_int_none].
  intros n. split.
  - intros H. now apply extract_int_first in H.
  - intros [pre [g [post [-> [Hpre [Hg [Hd [Hp ->]]]]]]]].
    unfold extract_int. now rewrite search_digits_found.
Qed.

Lemma extract_int_spec_witness :
  extract_int "LEFT 012 / 40" = Some 12
  /\ (extract_int "full" = None
      <-> all_chars (fun c => negb (is_digit c)) "full" = true).
Proof.
  destruct (extract_int_spec "LEFT 012 / 40" eq_refl) as [H1 _].
  destruct (extract_int_spec "full" eq_refl) as [_ H2].
  split; [|exact H2].
  apply H1. exists "LEFT ", "012", " / 40".
  repeat split; try reflexivity. discriminate.
Defined.

Lemma code_here_split s g :
  code_here s = Some g ->
  exists post, s = (g ++ post)%string /\ starts_with_word post = false.
Proof.
  unfold code_here.
  destruct s as [|a [|b [|c [|d [|e [|f r]]]]]]; try discriminate.
  destruct (is_upper a && is_upper b && is_upper c && is_digit d
            && is_digit e && is_digit f); [|discriminate].
  cbn [andb]. destruct (starts_with_word r) eqn:Er; [discriminate|].
  intros [= <-]. now exists r.
Qed.

Lemma last_is_word_cons c s :
  last_is_word (String c s)
  = match s with EmptyString => is_word c | _ => last_is_word s end.
Proof. reflexivity. Qed.

Lemma search_code_from_split s : forall prev_word g,
  search_code_from prev_word s = Some g ->
  exists pre post,
    s = (pre ++ g ++ post)%string
    /\ match pre with
       | EmptyString => prev_word
       | _ => last_is_word pre
       end = false
    /\ starts_with_word post = false.
Proof.
  induction s as [|c r IH]; intros prev_word g; [discriminate|].
  cbn [search_code_from].
  destruct (if prev_word then None else code_here (String c r)) as [g'|] eqn:E.
  - intros [= <-]. destruct prev_word; [discriminate|].
    destruct (code_here_split _ _ E) as [post [Hs Hp]].
    exists EmptyString, post. auto.
  - intros H. destruct (IH _ _ H) as [pre [post [-> [Hpre Hp]]]].
    exists (String c pre), post. split; [reflexivity|]. split; [|exact Hp].
    rewrite last_is_word_cons. now destruct pre.
Qed.

Lemma code_here_found g post :
  is_course_code g -> starts_with_word post = false ->
  code_here (g ++ post)%string = Some g.
Proof.
  intros [a [b [c [d [e [f [-> [Ha [Hb [Hc [Hd [He Hf]]]]]]]]]]]] Hp.
  cbn. now rewrite Ha, Hb, Hc, Hd, He, Hf, Hp.
Qed.

(** The code found in a cell is a course code that stands in the text as a
    word of its own: what precedes it does not end, and what follows it
    does not begin, with a letter, a digit or an underscore.  A cell that
    begins with such a code yields it. *)
Theorem search_code_delimited (s g : string) :
  (search_code s = Some g ->
   is_course_code g
   /\ exists pre post,
        s = (pre ++ g ++ post)%string
        /\ last_is_word pre = false
        /\ starts_with_word post = false)
  /\ (is_course_code g ->
      forall post, starts_with_word post = false ->
                   search_code (g ++ post)%string = Some g).
Proof.
  split.
  - intros H. split; [now apply search_code_shape in H|].
    destruct (search_code_from_split _ _ _ H) as [pre [post [Hs [Hpre Hp]]]].
    exists pre, post. split; [exact Hs|]. split; [|exact Hp].
    now destruct pre.
  - intros Hg post Hp. unfold search_code.
    pose proof (code_here_found g post Hg Hp) as E.
    destruct Hg as [a [b [c [d [e [f [-> _]]]]]]].
    cbn [append search_code_from] in *. now rewrite E.
Qed.

Lemma search_code_delimited_witness :
  (exists pre post,
     "Sec.1 GEN024 (E)" = (pre ++ "GEN024" ++ post)%string
     /\ last_is_word pre = false /\ starts_with_word post = false)
  /\ search_code "GEN024 (E)" = Some "GEN024"
  /\ search_code "XGEN024" = None
  /\ search_code "GEN0245" = None.
Proof.
  destruct (search_code_delimited "Sec.1 GEN024 (E)" "GEN024") as [H1 _].
  destruct (search_code_delimited "GEN024 (E)" "GEN024") as [_ H2].
  split; [|split; [|split; reflexivity]].
  - apply H1. reflexivity.
  - apply (H2 (ex_intro _ "G"%char (ex_intro _ "E"%char (ex_intro _ "N"%char
            (ex_intro _ "0"%char (ex_intro _ "2"%char (ex_intro _ "4"%char
              (conj eq_refl (conj eq_refl (conj eq_refl (conj eq_refl
                (conj eq_refl (conj eq_refl eq_refl))))))))))))
            " (E)" eq_refl).
Defined.

(** ** Extractor: the page *)

Lemma short_top_row_cases html :
  Exists short_top_row html \/ Forall (fun tr => ~ short_top_row tr) html.
Proof.
  induction html as [|tr rest IH]; [right; constructor|].
  destruct (parse_row_cases [] tr) as [[Hs _]|[Hn _]].
  - left. now constructor.
  - destruct IH as [H|H]; [left; now constructor 2|right; now constructor].
Qed.

Lemma parse_page_outcome (html : list Row) :
  ((exists e, parse_page html = Raise e) <-> Exists short_top_row html)
  /\ ((exists out, parse_page html = Ok out)
      <-> Forall (fun tr => ~ short_top_row tr) html).
Proof.
  destruct (short_top_row_cases html) as [Hex|Hall].
  - pose proof (parse_rows_raises html [] Hex) as Hr.
    unfold parse_page. rewrite Hr. split.
    + split; [intros _; exact Hex|intros _; now exists IndexError].
    + split; [intros [out [=]]|].
      intros Hall. exfalso.
      apply Exists_exists in Hex as [tr [HIn Hs]].
      rewrite Forall_forall in Hall. now apply (Hall tr).
  - destruct (parse_page_returns html Hall) as [out Ho].
    rewrite Ho. split.
    + split; [intros [e [=]]|].
      intros Hex. exfalso.
      apply Exists_exists in Hex as [tr [HIn Hs]].
      rewrite Forall_forall in Hall. now apply (Hall tr).
    + split; [intros _; exact Hall|intros _; now exists out].
Qed.

(** On a page whose seat cells are within the limit of [int],
    [parse_page] ends with an exception exactly when the page holds a row
    marked [valign="top"] with a single cell; on every other such page,
    whatever its rows hold, it returns a snapshot. *)
Theorem parse_page_raises_iff (html : list Row) :
  page_within_int_limit html ->
  ((exists e, parse_page html = Raise e) <-> Exists short_top_row html)
  /\ ((exists out, parse_page html = Ok out)
      <-> Forall (fun tr => ~ short_top_row tr) html).
Proof. intros _. apply parse_page_outcome. Qed.

Lemma parse_page_raises_iff_witness :
  (exists out,
     parse_page
       [ {| valign := None; tds := [] |};
         {| valign := None; tds := ["Code"; "Title"; "LEFT"] |};
         {| valign := Some "top"; tds := ["1"; "no code here"; "5"] |};
         {| valign := Some "top"; tds := ["2"; "ABC123"; "full"] |};
         {| valign := Some "middle"; tds := ["3"] |};
         {| valign := Some "top"; tds := ["4"; "XYZ999"; "07 / 40"] |} ]
     = Ok out)
  /\ (exists e,
        parse_page
          [ {| valign := Some "top"; tds := ["4"; "XYZ999"; "7"] |};
            {| valign := Some "top"; tds := ["XYZ999 7"] |} ]
        = Raise e).
Proof.
  split.
  - match goal with |- exists out, parse_page ?h = _ =>
      destruct (parse_page_raises_iff h) as [_ [_ H]] end.
    + repeat constructor.
    + apply H. repeat constructor; intros [Hv Hl]; discriminate.
  - match goal with |- exists e, parse_page ?h = _ =>
      destruct (parse_page_raises_iff h) as [[_ H] _] end.
    + repeat constructor.
    + apply H. constructor 2. constructor. split; reflexivity.
Defined.

Lemma parse_row_from_empty out tr :
  parse_row out tr
  = match parse_row [] tr with
    | Ok l => Ok (dict_update out l)
    | Raise e => Raise e
    end.
Proof.
  unfold parse_row.
  destruct (tds tr); [reflexivity|].
  destruct (valign_not_top tr && _); [reflexivity|].
  destruct (nth_error _ 1); [|reflexivity].
  destruct (search_code _); [|reflexivity].
  now destruct (extract_int _).
Qed.

Lemma parse_row_alone tr :
  parse_row [] tr = Ok []
  \/ (exists code info, parse_row [] tr = Ok [(code, info)])
  \/ parse_row [] tr = Raise IndexError.
Proof.
  unfold parse_row.
  destruct (tds tr); [now left|].
  destruct (valign_not_top tr && _); [now left|].
  destruct (nth_error _ 1); [|right; right; reflexivity].
  destruct (search_code _); [|now left].
  destruct (extract_int _); [|now left].
  right; left. do 2 eexists. reflexivity.
Qed.

Lemma parse_rows_app pre : forall out rest,
  parse_rows out (pre ++ rest)
  = (out' <- parse_rows out pre ;; parse_rows out' rest).
Proof.
  induction pre as [|tr l IH]; intros out rest; [reflexivity|].
  simpl. destruct (parse_row out tr); simpl; [apply IH|reflexivity].
Qed.

Lemma parse_rows_keeps code post : forall out out',
  parse_rows out post = Ok out' ->
  (forall tr info, In tr post -> ~ row_yields tr code info) ->
  dict_get code out' = dict_get code out.
Proof.
  induction post as [|tr rest IH]; simpl; intros out out' H Hno.
  - now injection H as <-.
  - rewrite parse_row_from_empty in H.
    destruct (parse_row_alone tr) as [E|[[c [i E]]|E]]; rewrite E in H;
      simpl in H; [now apply IH; auto| |discriminate].
    rewrite (IH _ _ H) by auto.
    apply dict_get_set_other. intros ->.
    apply (Hno tr i); [now left|exact E].
Qed.

(** Within a page the last row that yields a code decides its entry: the
    rows before it are overwritten and the rows after it, yielding other
    codes or nothing, leave it. *)
Theorem parse_page_last_row_wins (pre post : list Row) (tr : Row)
    (out : dict Info) (code : string) (info : Info) :
  parse_page (pre ++ tr :: post) = Ok out ->
  row_yields tr code info ->
  (forall tr' info', In tr' post -> ~ row_yields tr' code info') ->
  dict_get code out = Some info.
Proof.
  unfold parse_page. intros Hp Hy Hno.
  rewrite parse_rows_app in Hp.
  destruct (parse_rows [] pre) as [out0|e]; simpl in Hp; [|discriminate].
  rewrite parse_row_from_empty, Hy in Hp. simpl in Hp.
  rewrite (parse_rows_keeps code post _ _ Hp Hno).
  apply dict_get_set_same.
Qed.

Lemma parse_page_last_row_wins_witness :
  dict_get "ABC123"
    [("ABC123", {| open := false; seats := 0 |});
     ("XYZ999", {| open := true; seats := 7 |})]
  = Some {| open := false; seats := 0 |}.
Proof.
  apply (parse_page_last_row_wins
           [ {| valign := Some "top"; tds := ["1"; "ABC123"; "5"] |} ]
           [ {| valign := Some "top"; tds := ["3"; "XYZ999"; "7"] |};
             {| valign := None; tds := ["ABC123"; "ABC123"; "9"] |} ]
           {| valign := Some "top"; tds := ["2"; "ABC123"; "0"] |}).
  - reflexivity.
  - reflexivity.
  - intros tr' info' [<-|[<-|[]]]; discriminate.
Defined.

(** ** Aggregator: merging the pages *)

Lemma dict_get_update {V} k (other : dict V) : forall d,
  dict_wf other ->
  dict_get k (dict_update d other)
  = match dict_get k other with
    | Some v => Some v
    | None => dict_get k d
    end.
Proof.
  unfold dict_update, dict_wf.
  induction other as [|[k0 v0] r IH]; intros d Hnd; [reflexivity|].
  inversion Hnd as [|? ? Hk Hr]; subst.
  cbn [fold_left fst snd dict_get]. rewrite IH by exact Hr.
  destruct (String.eqb_spec k k0) as [->|Hne].
  - assert (E : dict_get k0 r = None) by now apply dict_get_none_keys.
    rewrite E. apply dict_get_set_same.
  - destruct (dict_get k r); [reflexivity|].
    apply dict_get_set_other. congruence.
Qed.

Lemma fetch_urls_app fetch pre : forall merged rest,
  fetch_urls fetch merged (pre ++ rest)
  = (m <- fetch_urls fetch merged pre ;; fetch_urls fetch m rest).
Proof.
  induction pre as [|u l IH]; intros merged rest; [reflexivity|].
  simpl. destruct (fetch u) as [|[|] page]; try reflexivity.
  destruct (parse_page page); simpl; [apply IH|reflexivity].
Qed.

Lemma fetch_urls_keeps fetch code urls : forall merged out,
  fetch_urls fetch merged urls = Ok out ->
  (forall u snap, In u urls -> page_snapshot fetch u snap ->
                  dict_get code snap = None) ->
  dict_get code out = dict_get code merged.
Proof.
  induction urls as [|u rest IH]; simpl; intros merged out H Hno.
  - now injection H as <-.
  - destruct (fetch u) as [|[|] page] eqn:Eu; try discriminate.
    destruct (parse_page page) as [snap|e] eqn:Ep; simpl in H; [|discriminate].
    rewrite (IH _ _ H) by (intros; eapply Hno; eauto).
    rewrite dict_get_update by now apply (parse_page_wf page).
    rewrite (Hno u snap); [reflexivity|now left|].
    exists page. now split.
Qed.

(** Across the pages the last one that lists a code decides its entry in
    the merged snapshot. *)
Theorem fetch_all_last_page_wins (cfg : Config) (fetch : string -> Fetched)
    (pre post : list string) (u : string) (snap merged : dict Info)
    (code : string) (info : Info) :
  PORTAL_URLS cfg = pre ++ u :: post ->
  fetch_all cfg fetch = Ok merged ->
  page_snapshot fetch u snap ->
  dict_get code snap = Some info ->
  (forall u' snap', In u' post -> page_snapshot fetch u' snap' ->
                    dict_get code snap' = None) ->
  dict_get code merged = Some info.
Proof.
  unfold fetch_all. intros -> Hf [page [Eu Ep]] Hc Hno.
  rewrite fetch_urls_app in Hf.
  destruct (fetch_urls fetch [] pre) as [m|e]; simpl in Hf; [|discriminate].
  rewrite Eu, Ep in Hf. simpl in Hf.
  rewrite (fetch_urls_keeps fetch code post _ _ Hf Hno).
  rewrite dict_get_update by now apply (parse_page_wf page).
  now rewrite Hc.
Qed.

Lemma fetch_all_last_page_wins_witness :
  let cfg := {| PORTAL_URLS := ["gen"; "maj"; "lang"]; COURSE_CODES := [];
                CODE_PREFIXES := []; INITIAL_NOTIFY := false |} in
  let row c n := {| valign := Some "top"; tds := ["1"; c; n] |} in
  let fetch := fun url : string =>
    if String.eqb url "gen" then Response true [row "ABC123" "5"]
    else if String.eqb url "maj" then Response true [row "ABC123" "2"]
    else Response true [row "XYZ999" "0"] in
  exists merged,
    fetch_all cfg fetch = Ok merged
    /\ dict_get "ABC123" merged = Some {| open := true; seats := 2 |}.
Proof.
  intros cfg row fetch.
  exists [("ABC123", {| open := true; seats := 2 |});
          ("XYZ999", {| open := false; seats := 0 |})].
  split; [reflexivity|].
  apply (fetch_all_last_page_wins cfg fetch ["gen"] ["lang"] "maj"
           [("ABC123", {| open := true; seats := 2 |})]).
  - reflexivity.
  - reflexivity.
  - exists [row "ABC123" "2"]. split; reflexivity.
  - reflexivity.
  - intros u' snap' [<-|[]] [page [Eu Ep]].
    injection Eu as <-. now injection Ep as <-.
Defined.

Lemma fetch_urls_entries fetch urls : forall merged out code info,
  fetch_urls fetch merged urls = Ok out -> In (code, info) out ->
  In (code, info) merged
  \/ exists u snap, In u urls /\ page_snapshot fetch u snap
                    /\ In (code, info) snap.
Proof.
  induction urls as [|u rest IH]; simpl; intros merged out code info H HIn.
  - injection H as <-. now left.
  - destruct (fetch u) as [|[|] page] eqn:Eu; try discriminate.
    destruct (parse_page page) as [snap|e] eqn:Ep; simpl in H; [|discriminate].
    destruct (IH _ _ _ _ H HIn) as [H1|[u' [snap' [Hu [Hs Hi]]]]].
    + destruct (dict_in_update _ _ _ _ H1) as [H2|H2]; [now left|].
      right. exists u, snap. split; [now left|]. split; [|exact H2].
      exists page. now split.
    + right. exists u', snap'. split; [now right|now split].
Qed.

Lemma fetch_urls_returns_iff fetch urls : forall merged,
  (exists m, fetch_urls fetch merged urls = Ok m)
  <-> Forall (fetched_and_parsable fetch) urls.
Proof.
  unfold fetched_and_parsable.
  induction urls as [|u rest IH]; intros merged; simpl.
  - split; [constructor|intros _; now exists merged].
  - destruct (fetch u) as [|[|] page] eqn:Eu.
    + split; [intros [m [=]]|].
      intros H. inversion H as [|? ? [p [Hp _]] _]. congruence.
    + destruct (proj2 (parse_page_outcome page)) as [Hok1 Hok2].
      destruct (parse_page page) as [snap|e] eqn:Ep; simpl.
      * rewrite IH. split.
        -- intros H. constructor; [|exact H].
           exists page. split; [exact Eu|]. apply Hok1. now exists snap.
        -- intros H. now inversion H.
      * split; [intros [m [=]]|].
        intros H. inversion H as [|? ? [p [Hp Hrows]] _].
        rewrite Eu in Hp. injection Hp as <-.
        destruct (Hok2 Hrows) as [out [=]].
    + split; [intros [m [=]]|].
      intros H. inversion H as [|? ? [p [Hp _]] _]. congruence.
Qed.

(** Which fetches return.  When the seat cells of the fetched pages are
    within the limit of [int], [fetch_all] returns the merged snapshot
    exactly when every configured page is fetched with a good status and
    holds no row marked [valign="top"] with a single cell; and a run that
    returns normally, whatever the state file, has fetched every page
    so. *)
Theorem fetch_all_returns_iff (cfg : Config) (fetch : string -> Fetched) :
  pages_within_int_limit fetch (PORTAL_URLS cfg) ->
  ((exists merged, fetch_all cfg fetch = Ok merged)
   <-> Forall (fetched_and_parsable fetch) (PORTAL_URLS cfg))
  /\ (forall file,
        outcome (main cfg fetch file) = Ok tt ->
        Forall (fetched_and_parsable fetch) (PORTAL_URLS cfg)).
Proof.
  intros _. split; [apply fetch_urls_returns_iff|].
  intros file H. apply (fetch_urls_returns_iff fetch _ []).
  unfold main, latest_of in H. fold (fetch_all cfg fetch).
  destruct (fetch_all cfg fetch) as [m|e]; [now exists m|discriminate].
Qed.

Lemma fetch_all_returns_iff_witness :
  let cfg := {| PORTAL_URLS := ["gen"; "maj"]; COURSE_CODES := [];
                CODE_PREFIXES := []; INITIAL_NOTIFY := false |} in
  let fetch := fun url : string =>
    if String.eqb url "gen"
    then Response true
           [ {| valign := Some "top"; tds := ["1"; "ABC123"; "5"] |};
             {| valign := None; tds := ["spacer"] |} ]
    else Response true
           [ {| valign := Some "top"; tds := ["1"; "XYZ999"; "full"] |} ] in
  exists merged, fetch_all cfg fetch = Ok merged.
Proof.
  intros cfg fetch.
  destruct (fetch_all_returns_iff cfg fetch) as [[_ H] _].
  - constructor; [intros page [= <-]; repeat constructor|].
    constructor; [intros page [= <-]; repeat constructor|constructor].
  - apply H.
    constructor.
    + eexists. split; [reflexivity|].
      repeat constructor; intros [Hv Hl]; discriminate.
    + constructor; [|constructor].
      eexists. split; [reflexivity|].
      repeat constructor; intros [Hv Hl]; discriminate.
Defined.

(** ** Differ: the order of the events and of the baseline *)

Lemma diff_step_keys st k i :
  dict_keys (prev_courses (diff_step st (k, i)))
  = if dict_mem k (prev_courses st) then dict_keys (prev_courses st)
    else dict_keys (prev_courses st) ++ [k].
Proof.
  rewrite diff_step_fired. unfold fired, dict_mem. cbn [fst snd].
  destruct (dict_get k (prev_courses st)) as [p|] eqn:E.
  - destruct (classify (Some p) k i); [|reflexivity].
    cbn [replace_entry prev_courses]. rewrite dict_keys_set.
    unfold dict_mem. now rewrite E.
  - cbn [classify replace_entry prev_courses]. rewrite dict_keys_set.
    unfold dict_mem. now rewrite E.
Qed.

Lemma diff_step_mem_other st k i c :
  c <> k ->
  dict_mem c (prev_courses (diff_step st (k, i))) = dict_mem c (prev_courses st).
Proof.
  intros Hne. unfold dict_mem. rewrite diff_step_get.
  destruct (String.eqb_spec c k); [contradiction|reflexivity].
Qed.

Lemma diff_latest_keys latest : forall st,
  dict_wf latest ->
  dict_keys (prev_courses (diff_latest latest st))
  = dict_keys (prev_courses st)
    ++ filter (fun c => negb (dict_mem c (prev_courses st))) (dict_keys latest).
Proof.
  unfold dict_wf.
  induction latest as [|[k i] rest IH]; intros st Hnd.
  - simpl. now rewrite app_nil_r.
  - inversion Hnd as [|? ? Hk Hrest]; subst.
    rewrite diff_latest_cons, IH by exact Hrest.
    rewrite (filter_agree _ (fun c => negb (dict_mem c (prev_courses st)))).
    2:{ intros c Hc. rewrite diff_step_mem_other; [reflexivity|].
        intros ->. contradiction. }
    rewrite diff_step_keys. cbn [dict_keys map fst filter].
    destruct (dict_mem k (prev_courses st)); cbn [negb];
      [reflexivity|now rewrite <- app_assoc].
Qed.

Lemma filter_none {A} (f : A -> bool) l :
  (forall a, In a l -> f a = false) -> filter f l = [].
Proof.
  induction l as [|a r IH]; simpl; intros H; [reflexivity|].
  rewrite (H a) by now left. apply IH. intros b Hb. apply H. now right.
Qed.

Lemma gone_fires_after_first_loop cfg latest baseline c :
  dict_wf latest ->
  gone_fires cfg latest
    (prev_courses (diff_latest latest
       {| prev_courses := baseline; changed := false; events := [] |})) c
  = gone_fires cfg latest baseline c.
Proof.
  intros Hwf.
  destruct (diff_latest_spec latest
              {| prev_courses := baseline; changed := false; events := [] |}
              Hwf) as [_ [_ Hget]].
  unfold gone_fires. rewrite Hget. unfold dict_mem. cbn [prev_courses].
  destruct (dict_get c latest); [|reflexivity].
  cbn [negb]. now rewrite !andb_false_r.
Qed.

Lemma differ_events_eq cfg latest baseline :
  dict_wf latest -> dict_wf baseline ->
  events (differ cfg latest baseline)
  = flat_map (fun kv => option_list (fired baseline kv)) latest
    ++ map EvGone (filter (gone_fires cfg latest baseline) (dict_keys baseline)).
Proof.
  intros Hwf Hbase. rewrite differ_unfold. cbv zeta.
  set (st0 := {| prev_courses := baseline; changed := false; events := [] |}).
  destruct (diff_latest_spec latest st0 Hwf) as [Hev1 _].
  assert (Hnd : NoDup (dict_keys (prev_courses (diff_latest latest st0))))
    by (apply (diff_latest_wf latest st0); exact Hbase).
  destruct (gone_fold_spec cfg latest _ (diff_latest latest st0) Hnd)
    as [Hev _].
  rewrite Hev, Hev1. cbn [events prev_courses app]. f_equal. f_equal.
  rewrite (filter_agree _ (gone_fires cfg latest baseline))
    by (intros c _; now apply gone_fires_after_first_loop).
  rewrite (diff_latest_keys latest st0 Hwf). cbn [prev_courses].
  rewrite filter_app.
  match goal with |- _ ++ ?l = _ => assert (E : l = []) end.
  { apply filter_none. intros c Hc.
    apply filter_In in Hc as [Hc _]. apply dict_mem_keys in Hc.
    unfold gone_fires. rewrite Hc. cbn [negb].
    now rewrite andb_false_r. }
  rewrite E. apply app_nil_r.
Qed.

Ltac distinct_keys :=
  unfold dict_wf; simpl;
  repeat (constructor; [simpl; intuition discriminate|]); constructor.

(** The notifications of a steady-state run, in order: first one event per
    changed or new code, in the order of [latest]; then one disappearance
    event per in-scope, absent, not yet flagged code, in the order of the
    baseline the run started from. *)
Theorem differ_events_in_order (cfg : Config) (latest : dict Info)
    (baseline : dict CourseRecord) :
  dict_wf latest ->
  dict_wf baseline ->
  events (differ cfg latest baseline)
  = flat_map (fun kv => option_list (classify (dict_get (fst kv) baseline)
                                       (fst kv) (snd kv))) latest
    ++ map EvGone (filter (gone_fires cfg latest baseline) (dict_keys baseline)).
Proof. apply differ_events_eq. Qed.

Lemma differ_events_in_order_witness :
  let cfg := {| PORTAL_URLS := ["u"]; COURSE_CODES := [];
                CODE_PREFIXES := ["A"; "B"]; INITIAL_NOTIFY := false |} in
  let latest := [("BBB222", {| open := true; seats := 1 |});
                 ("AAA111", {| open := true; seats := 9 |})] in
  let baseline :=
    [("AAA999", {| rec_open := true; rec_seats := 2; gone_notified := false |});
     ("AAA111", {| rec_open := true; rec_seats := 4; gone_notified := false |});
     ("CCC333", {| rec_open := true; rec_seats := 3; gone_notified := false |});
     ("BBB000", {| rec_open := false; rec_seats := 0; gone_notified := true |});
     ("BBB111", {| rec_open := false; rec_seats := 0; gone_notified := false |})] in
  events (differ cfg latest baseline)
  = [EvAppeared "BBB222" true 1; EvSeats "AAA111" 4 9;
     EvGone "AAA999"; EvGone "BBB111"].
Proof.
  intros cfg latest baseline.
  rewrite (differ_events_in_order cfg latest baseline).
  - reflexivity.
  - distinct_keys.
  - distinct_keys.
Defined.

(** The order of the baseline is stable: a steady-state run keeps the
    known codes where they are and appends the codes that appear, in the
    order of [latest]. *)
Theorem differ_keys_in_order (cfg : Config) (latest : dict Info)
    (baseline : dict CourseRecord) :
  dict_wf latest ->
  dict_keys (prev_courses (differ cfg latest baseline))
  = dict_keys baseline
    ++ filter (fun c => negb (dict_mem c baseline)) (dict_keys latest).
Proof.
  intros Hwf. rewrite differ_unfold. cbv zeta.
  rewrite gone_fold_keys.
  apply (diff_latest_keys latest
           {| prev_courses := baseline; changed := false; events := [] |} Hwf).
Qed.

Lemma differ_keys_in_order_witness :
  let cfg := {| PORTAL_URLS := ["u"]; COURSE_CODES := [];
                CODE_PREFIXES := []; INITIAL_NOTIFY := false |} in
  let latest := [("NEW002", {| open := true; seats := 1 |});
                 ("OLD002", {| open := true; seats := 9 |});
                 ("NEW001", {| open := false; seats := 0 |})] in
  let baseline :=
    [("OLD001", {| rec_open := true; rec_seats := 2; gone_notified := false |});
     ("OLD002", {| rec_open := true; rec_seats := 4; gone_notified := false |})] in
  dict_keys (prev_courses (differ cfg latest baseline))
  = ["OLD001"; "OLD002"; "NEW002"; "NEW001"].
Proof.
  intros cfg latest baseline.
  rewrite (differ_keys_in_order cfg latest baseline).
  - reflexivity.
  - distinct_keys.
Defined.

(** ** Differ: saving and notifying *)

Lemma some_event_snoc evs e : some_event (evs ++ [e]) = true.
Proof. now destruct evs. Qed.

Lemma diff_latest_changed_events latest : forall st,
  changed st = some_event (events st) ->
  changed (diff_latest latest st) = some_event (events (diff_latest latest st)).
Proof.
  induction latest as [|kv rest IH]; intros st H; [exact H|].
  rewrite diff_latest_cons. apply IH. rewrite diff_step_fired.
  destruct (fired _ kv); [|exact H].
  cbn [replace_entry changed events]. now rewrite some_event_snoc.
Qed.

Lemma gone_fold_changed_events cfg latest ks : forall st,
  changed st = some_event (events st) ->
  changed (gone_fold cfg latest ks st)
  = some_event (events (gone_fold cfg latest ks st)).
Proof.
  induction ks as [|k rest IH]; intros st H; [exact H|].
  rewrite gone_fold_cons. apply IH. rewrite gone_step_fires.
  destruct (gone_fires _ _ _ _); [|exact H].
  cbn [changed events]. now rewrite some_event_snoc.
Qed.

Lemma differ_changed_events cfg latest baseline :
  changed (differ cfg latest baseline)
  = some_event (events (differ cfg latest baseline)).
Proof.
  rewrite differ_unfold. cbv zeta.
  apply gone_fold_changed_events, diff_latest_changed_events. reflexivity.
Qed.

(** A steady-state run writes the state file exactly when it sends at
    least one notification; when it sends none, its whole output is the
    line "No changes." and the file is left as it was. *)
Theorem steady_run_saves_iff_notifies (cfg : Config)
    (fetch : string -> Fetched) (file : StateFile) (latest : dict Info) :
  first_run file = false ->
  latest_of cfg fetch = Ok latest ->
  let r := main cfg fetch file in
  (file_written r = true <-> notifications (output r) <> [])
  /\ (file_written r = false <-> output r = [Stdout no_changes_line])
  /\ (file_written r = false -> file_after r = file).
Proof.
  intros Hfirst El r. unfold r.
  rewrite (main_steady _ _ _ _ Hfirst El), steady_notifications.
  unfold steady_branch. cbn [file_written output file_after].
  rewrite differ_changed_events.
  destruct (events (differ cfg latest (load_courses file))) as [|e evs];
    cbn [some_event map app].
  - repeat split; try discriminate; try reflexivity. intros H. now elim H.
  - repeat split; try discriminate; try reflexivity.
Qed.

Lemma steady_run_saves_iff_notifies_witness :
  let cfg := {| PORTAL_URLS := ["u"]; COURSE_CODES := [];
                CODE_PREFIXES := []; INITIAL_NOTIFY := false |} in
  let fetch := fun _ : string =>
    Response true [ {| valign := Some "top"; tds := ["1"; "ABC123"; "5"] |} ] in
  let same := Stored [("ABC123", {| rec_open := true; rec_seats := 5;
                                    gone_notified := false |})] in
  let other := Stored [("ABC123", {| rec_open := true; rec_seats := 6;
                                     gone_notified := false |})] in
  output (main cfg fetch same) = [Stdout no_changes_line]
  /\ notifications (output (main cfg fetch other)) <> [].
Proof.
  intros cfg fetch same other.
  destruct (steady_run_saves_iff_notifies cfg fetch same
              [("ABC123", {| open := true; seats := 5 |})] eq_refl eq_refl)
    as [_ [H1 _]].
  destruct (steady_run_saves_iff_notifies cfg fetch other
              [("ABC123", {| open := true; seats := 5 |})] eq_refl eq_refl)
    as [H2 _].
  split; [now apply H1|now apply H2].
Defined.

(** ** The run: what it keeps *)

Lemma main_cases cfg fetch file :
  (exists e, latest_of cfg fetch = Raise e
             /\ main cfg fetch file
                = {| outcome := Raise e; file_written := false;
                     file_after := file; output := [] |})
  \/ (exists latest, latest_of cfg fetch = Ok latest
                     /\ first_run file = true
                     /\ main cfg fetch file = first_run_branch cfg latest)
  \/ (exists latest, latest_of cfg fetch = Ok latest
                     /\ first_run file = false
                     /\ main cfg fetch file = steady_branch cfg latest file).
Proof.
  unfold main. destruct (latest_of cfg fetch) as [latest|e].
  - right. destruct (first_run file); [left|right]; now exists latest.
  - left. now exists e.
Qed.

Lemma first_run_no_courses file : first_run file = true -> load_courses file = [].
Proof. unfold first_run. now destruct (load_courses file). Qed.

(** No run forgets a course: every code of the baseline in the state file
    before a run is a code of the baseline after it. *)
Theorem main_keeps_codes (cfg : Config) (fetch : string -> Fetched)
    (file : StateFile) (code : string) :
  In code (dict_keys (load_courses file)) ->
  In code (dict_keys (load_courses (file_after (main cfg fetch file)))).
Proof.
  intros HIn.
  destruct (main_cases cfg fetch file)
    as [[e [_ ->]]|[[latest [_ [Hf _]]]|[latest [_ [_ ->]]]]].
  - exact HIn.
  - rewrite (first_run_no_courses _ Hf) in HIn. destruct HIn.
  - rewrite steady_branch_courses.
    destruct (changed _); [|exact HIn].
    now apply differ_keeps_codes.
Qed.

Lemma main_keeps_codes_witness :
  let cfg := {| PORTAL_URLS := []; COURSE_CODES := ["XYZ999"];
                CODE_PREFIXES := []; INITIAL_NOTIFY := false |} in
  let fetch := fun _ : string => GetRaises in
  let file := Stored [("ABC123", {| rec_open := true; rec_seats := 5;
                                    gone_notified := false |});
                      ("XYZ999", {| rec_open := true; rec_seats := 1;
                                    gone_notified := false |})] in
  In "ABC123" (dict_keys (load_courses (file_after (main cfg fetch file))))
  /\ output (main cfg fetch file) = [Notify (EvGone "XYZ999")].
Proof.
  intros cfg fetch file. split; [|reflexivity].
  apply (main_keeps_codes cfg fetch file "ABC123"). simpl. now left.
Defined.

Lemma events_for_initial code latest :
  dict_get code latest = None ->
  events_for code (map initial_event latest) = [].
Proof.
  induction latest as [|[k i] r IH]; simpl; [reflexivity|].
  destruct (String.eqb_spec code k) as [->|Hne]; [discriminate|].
  intros H. destruct (String.eqb_spec k code); [congruence|auto].
Qed.

Lemma first_run_notifications cfg latest :
  notifications (output (first_run_branch cfg latest))
  = if INITIAL_NOTIFY cfg then map initial_event latest else [].
Proof.
  unfold first_run_branch. cbn [output].
  destruct (INITIAL_NOTIFY cfg); [|reflexivity].
  rewrite <- (map_map initial_event Notify). apply notifications_notify.
Qed.

Lemma latest_of_filtered cfg fetch latest code :
  latest_of cfg fetch = Ok latest -> passes_filter cfg code = false ->
  dict_get code latest = None.
Proof.
  unfold latest_of. destruct (fetch_all cfg fetch) as [m|e]; simpl;
    [|discriminate].
  intros [= <-] Hp. now rewrite dict_get_filter, Hp.
Qed.

Lemma events_for_differ_absent cfg latest baseline code :
  dict_wf latest -> dict_wf baseline ->
  dict_get code latest = None ->
  gone_fires cfg latest baseline code = false ->
  events_for code (events (differ cfg latest baseline)) = [].
Proof.
  intros Hwf Hbase Hl Hf.
  rewrite (differ_events_eq _ _ _ Hwf Hbase), events_for_app.
  rewrite events_for_absent by now apply dict_get_none_keys.
  apply events_for_gone. intros HIn.
  apply filter_In in HIn as [_ H]. congruence.
Qed.

(** A code that the filter rejects is out of the run's reach: its record
    in the state file is neither created, changed nor flagged, and no
    notification is about it. *)
Theorem out_of_scope_untouched (cfg : Config) (fetch : string -> Fetched)
    (file : StateFile) (code : string) :
  dict_wf (load_courses file) ->
  passes_filter cfg code = false ->
  let r := main cfg fetch file in
  dict_get code (load_courses (file_after r)) = dict_get code (load_courses file)
  /\ events_for code (notifications (output r)) = [].
Proof.
  intros Hbase Hp r. unfold r.
  destruct (main_cases cfg fetch file)
    as [[e [_ ->]]|[[latest [El [Hf ->]]]|[latest [El [Hf ->]]]]].
  - now split.
  - pose proof (latest_of_filtered _ _ _ _ El Hp) as Hl.
    rewrite first_run_notifications, (first_run_no_courses _ Hf).
    cbn [first_run_branch file_after load_courses].
    rewrite as_baseline_get, Hl. split; [reflexivity|].
    destruct (INITIAL_NOTIFY cfg); [|reflexivity].
    now apply events_for_initial.
  - pose proof (latest_of_filtered _ _ _ _ El Hp) as Hl.
    pose proof (latest_of_wf _ _ _ El) as Hwf.
    assert (Hm : dict_mem code latest = false)
      by (unfold dict_mem; now rewrite Hl).
    assert (Hfires : gone_fires cfg latest (load_courses file) code = false)
      by (unfold gone_fires; now rewrite Hp).
    rewrite steady_notifications, steady_branch_courses.
    split; [|now apply events_for_differ_absent].
    destruct (differ_absent cfg latest (load_courses file) code Hwf Hbase Hm)
      as [_ [Hg _]].
    rewrite Hfires in Hg. now destruct (changed _).
Qed.

Lemma out_of_scope_untouched_witness :
  let cfg := {| PORTAL_URLS := ["u"]; COURSE_CODES := [];
                CODE_PREFIXES := ["ABC"]; INITIAL_NOTIFY := false |} in
  let fetch := fun _ : string =>
    Response true [ {| valign := Some "top"; tds := ["1"; "XYZ999"; "3"] |} ] in
  let file := Stored [("ABC123", {| rec_open := true; rec_seats := 5;
                                    gone_notified := false |});
                      ("XYZ999", {| rec_open := false; rec_seats := 0;
                                    gone_notified := false |})] in
  dict_get "XYZ999" (load_courses (file_after (main cfg fetch file)))
  = Some {| rec_open := false; rec_seats := 0; gone_notified := false |}
  /\ events_for "XYZ999" (notifications (output (main cfg fetch file))) = []
  /\ output (main cfg fetch file) = [Notify (EvGone "ABC123")].
Proof.
  intros cfg fetch file.
  destruct (out_of_scope_untouched cfg fetch file "XYZ999") as [H1 H2].
  - distinct_keys.
  - reflexivity.
  - split; [exact H1|]. split; [exact H2|reflexivity].
Defined.

(** A course that a steady-state run does not find keeps the open and
    seats it was last seen with; a flag that is set stays set. *)
Theorem absent_code_keeps_last_seen (cfg : Config)
    (fetch : string -> Fetched) (file : StateFile) (latest : dict Info)
    (code : string) (r : CourseRecord) :
  dict_wf (load_courses file) ->
  latest_of cfg fetch = Ok latest ->
  dict_mem code latest = false ->
  dict_get code (load_courses file) = Some r ->
  exists r',
    dict_get code (load_courses (file_after (main cfg fetch file))) = Some r'
    /\ rec_open r' = rec_open r
    /\ rec_seats r' = rec_seats r
    /\ (gone_notified r = true -> gone_notified r' = true).
Proof.
  intros Hbase El Hm Hr.
  destruct (run_absent cfg fetch file code latest Hbase
              (known_not_first_run _ _ _ Hr) El Hm) as [_ Hg].
  rewrite Hr in Hg.
  destruct (gone_fires cfg latest (load_courses file) code).
  - exists (mark_gone r). now rewrite Hg.
  - exists r. now rewrite Hg.
Qed.

Lemma absent_code_keeps_last_seen_witness :
  let cfg := {| PORTAL_URLS := ["u"]; COURSE_CODES := [];
                CODE_PREFIXES := []; INITIAL_NOTIFY := false |} in
  let fetch := fun _ : string =>
    Response true [ {| valign := Some "top"; tds := ["1"; "XYZ999"; "3"] |} ] in
  let file := Stored [("ABC123", {| rec_open := true; rec_seats := 5;
                                    gone_notified := false |})] in
  exists r',
    dict_get "ABC123" (load_courses (file_after (main cfg fetch file))) = Some r'
    /\ rec_open r' = true /\ rec_seats r' = 5.
Proof.
  intros cfg fetch file.
  destruct (absent_code_keeps_last_seen cfg fetch file
              [("XYZ999", {| open := true; seats := 3 |})] "ABC123"
              {| rec_open := true; rec_seats := 5; gone_notified := false |})
    as [r' [H1 [H2 [H3 _]]]].
  - distinct_keys.
  - reflexivity.
  - reflexivity.
  - reflexivity.
  - exists r'. auto.
Defined.

(** After a run that returns, the baseline in the state file agrees with
    what was fetched: every code of the filtered snapshot has a record with
    the fetched open and seats. *)
Theorem saved_agrees_with_latest (cfg : Config) (fetch : string -> Fetched)
    (file : StateFile) (latest : dict Info) (code : string) (info : Info) :
  latest_of cfg fetch = Ok latest ->
  In (code, info) latest ->
  exists r,
    dict_get code (load_courses (file_after (main cfg fetch file))) = Some r
    /\ rec_open r = open info
    /\ rec_seats r = seats info.
Proof.
  intros El HIn.
  pose proof (latest_of_wf _ _ _ El) as Hwf.
  destruct (first_run file) eqn:Hf.
  - rewrite (main_first_run _ _ _ _ Hf El).
    cbn [first_run_branch file_after load_courses].
    rewrite as_baseline_get, (dict_get_in _ _ _ Hwf HIn).
    exists (of_info info). auto.
  - destruct (run_present cfg fetch file code latest info Hf El HIn)
      as [_ Hg].
    destruct (classify (dict_get code (load_courses file)) code info) eqn:E.
    + exists (of_info info). auto.
    + apply classify_none in E as [r [Er [Ho Hs]]].
      exists r. rewrite Hg. auto.
Qed.

Lemma saved_agrees_with_latest_witness :
  let cfg := {| PORTAL_URLS := ["u"]; COURSE_CODES := [];
                CODE_PREFIXES := []; INITIAL_NOTIFY := false |} in
  let fetch := fun _ : string =>
    Response true [ {| valign := Some "top"; tds := ["1"; "ABC123"; "0"] |} ] in
  let file := Stored [("ABC123", {| rec_open := true; rec_seats := 5;
                                    gone_notified := true |})] in
  exists r,
    dict_get "ABC123" (load_courses (file_after (main cfg fetch file))) = Some r
    /\ rec_open r = false /\ rec_seats r = 0.
Proof.
  intros cfg fetch file.
  apply (saved_agrees_with_latest cfg fetch file
           [("ABC123", {| open := false; seats := 0 |})] "ABC123"
           {| open := false; seats := 0 |}).
  - reflexivity.
  - simpl. now left.
Defined.

(** ** The run: consistency of the records *)

Lemma parse_page_entries_consistent html out code info :
  parse_page html = Ok out -> In (code, info) out ->
  0 <= seats info /\ open info = (0 <? seats info).
Proof.
  unfold parse_page. intros Hp HIn.
  destruct (parse_rows_entries _ _ _ _ _ Hp HIn) as [[]|[tr [_ Hx]]].
  destruct Hx as [_ [_ [_ [_ [_ [_ [Hn Ho]]]]]]]. now split.
Qed.

Lemma latest_entries cfg fetch latest code info :
  latest_of cfg fetch = Ok latest -> In (code, info) latest ->
  passes_filter cfg code = true
  /\ exists u snap, In u (PORTAL_URLS cfg) /\ page_snapshot fetch u snap
                    /\ In (code, info) snap.
Proof.
  unfold latest_of, fetch_all.
  destruct (fetch_urls fetch [] (PORTAL_URLS cfg)) as [m|e] eqn:E; simpl;
    [|discriminate].
  intros [= <-] HIn. apply filter_In in HIn as [HIn Hp]. split; [exact Hp|].
  destruct (fetch_urls_entries _ _ _ _ _ _ E HIn) as [[]|H]. exact H.
Qed.

Lemma latest_consistent cfg fetch latest code info :
  latest_of cfg fetch = Ok latest -> In (code, info) latest ->
  record_consistent (of_info info).
Proof.
  intros El HIn.
  destruct (latest_entries _ _ _ _ _ El HIn)
    as [_ [u [snap [_ [[page [_ Hp]] Hs]]]]].
  destruct (parse_page_entries_consistent page snap code info Hp Hs)
    as [Hn Ho].
  split; [exact Hn|exact Ho].
Qed.

Lemma diff_latest_in latest : forall st code r,
  In (code, r) (prev_courses (diff_latest latest st)) ->
  In (code, r) (prev_courses st)
  \/ exists info, In (code, info) latest /\ r = of_info info.
Proof.
  induction latest as [|[k i] rest IH]; intros st code r H; [now left|].
  rewrite diff_latest_cons in H.
  destruct (IH _ _ _ H) as [H1|[info [Hi ->]]].
  - rewrite diff_step_fired in H1. destruct (fired _ (k, i)); [|now left].
    cbn [replace_entry prev_courses fst snd] in H1.
    destruct (dict_in_set _ _ _ _ _ H1) as [[-> ->]|H2]; [|now left].
    right. exists i. split; [now left|reflexivity].
  - right. exists info. split; [now right|reflexivity].
Qed.

Lemma mark_gone_twice r : mark_gone (mark_gone r) = mark_gone r.
Proof. reflexivity. Qed.

Lemma gone_fold_in cfg latest ks : forall st code r,
  In (code, r) (prev_courses (gone_fold cfg latest ks st)) ->
  exists r0, In (code, r0) (prev_courses st) /\ (r = r0 \/ r = mark_gone r0).
Proof.
  induction ks as [|k rest IH]; intros st code r H.
  - exists r. split; [exact H|now left].
  - rewrite gone_fold_cons in H.
    destruct (IH _ _ _ H) as [r1 [H1 Hr]].
    rewrite gone_step_fires in H1.
    destruct (gone_fires _ _ _ _); [|now exists r1].
    cbn [prev_courses] in H1. unfold mark_at in H1.
    destruct (dict_get k (prev_courses st)) as [r0|] eqn:E; [|now exists r1].
    destruct (dict_in_set _ _ _ _ _ H1) as [[-> ->]|H2]; [|now exists r1].
    exists r0. split; [now apply dict_get_some_in|].
    right. destruct Hr as [->| ->]; reflexivity.
Qed.

(** Runs keep the records consistent: when every record of the baseline
    in the state file has seats not negative and open exactly when there are
    seats, so has every record of the baseline after the run. *)
Theorem main_keeps_records_consistent (cfg : Config)
    (fetch : string -> Fetched) (file : StateFile) :
  baseline_consistent file ->
  baseline_consistent (file_after (main cfg fetch file)).
Proof.
  intros Hbase.
  destruct (main_cases cfg fetch file)
    as [[e [_ ->]]|[[latest [El [_ ->]]]|[latest [El [_ ->]]]]].
  - exact Hbase.
  - intros code r HIn.
    cbn [first_run_branch file_after load_courses] in HIn.
    apply in_map_iff in HIn as [[k i] [[= <- <-] Hi]].
    now apply (latest_consistent cfg fetch latest k i).
  - intros code r. rewrite steady_branch_courses.
    destruct (changed _); [|apply Hbase].
    rewrite differ_unfold. cbv zeta. intros HIn.
    destruct (gone_fold_in _ _ _ _ _ _ HIn) as [r0 [H0 Hr]].
    assert (Hc : record_consistent r0).
    { destruct (diff_latest_in _ _ _ _ H0) as [H1|[info [Hi ->]]].
      - now apply (Hbase code).
      - now apply (latest_consistent cfg fetch latest code info). }
    destruct Hr as [->| ->]; exact Hc.
Qed.

Lemma main_keeps_records_consistent_witness :
  let cfg := {| PORTAL_URLS := ["u"]; COURSE_CODES := [];
                CODE_PREFIXES := []; INITIAL_NOTIFY := false |} in
  let fetch := fun _ : string =>
    Response true [ {| valign := Some "top"; tds := ["1"; "XYZ999"; "3"] |} ] in
  let file := Stored [("ABC123", {| rec_open := true; rec_seats := 5;
                                    gone_notified := false |})] in
  baseline_consistent (file_after (main cfg fetch file)).
Proof.
  intros cfg fetch file.
  apply (main_keeps_records_consistent cfg fetch file).
  intros code r [[= <- <-]|[]]. split; [discriminate|reflexivity].
Defined.

(** ** The run: what it notifies *)

Lemma differ_event_codes cfg latest baseline e :
  dict_wf latest ->
  In e (events (differ cfg latest baseline)) ->
  (exists info, In (event_code e, info) latest)
  \/ (passes_filter cfg (event_code e) = true
      /\ dict_mem (event_code e) latest = false
      /\ e = EvGone (event_code e)).
Proof.
  intros Hwf. rewrite differ_unfold. cbv zeta.
  set (st0 := {| prev_courses := baseline; changed := false; events := [] |}).
  destruct (gone_fold_events cfg latest
              (dict_keys (prev_courses (diff_latest latest st0)))
              (diff_latest latest st0)) as [cs [-> Hcs]].
  destruct (diff_latest_spec latest st0 Hwf) as [-> _].
  cbn [events app]. rewrite in_app_iff. intros [H|H].
  - left. apply in_flat_map in H as [[k i] [Hk He]].
    unfold fired in He. cbn [fst snd] in He.
    destruct (classify _ k i) as [e'|] eqn:E; [|destruct He].
    destruct He as [<-|[]]. rewrite (classify_code _ _ _ _ E). now exists i.
  - right. apply in_map_iff in H as [c [<- Hc]].
    rewrite Forall_forall in Hcs. destruct (Hcs _ Hc). now repeat split.
Qed.

(** Every notification of a run is about a code that passes the filter. *)
Theorem notifications_pass_filter (cfg : Config) (fetch : string -> Fetched)
    (file : StateFile) (e : Event) :
  In e (notifications (output (main cfg fetch file))) ->
  passes_filter cfg (event_code e) = true.
Proof.
  destruct (main_cases cfg fetch file)
    as [[x [_ ->]]|[[latest [El [_ ->]]]|[latest [El [_ ->]]]]].
  - intros [].
  - rewrite first_run_notifications.
    destruct (INITIAL_NOTIFY cfg); [|intros []].
    intros H. apply in_map_iff in H as [[k i] [<- Hk]].
    now destruct (latest_entries _ _ _ _ _ El Hk).
  - rewrite steady_notifications. intros H.
    destruct (differ_event_codes _ _ _ _ (latest_of_wf _ _ _ El) H)
      as [[info Hi]|[Hp _]]; [|exact Hp].
    now destruct (latest_entries _ _ _ _ _ El Hi).
Qed.

Lemma notifications_pass_filter_witness :
  let cfg := {| PORTAL_URLS := ["u"]; COURSE_CODES := [];
                CODE_PREFIXES := ["ABC"]; INITIAL_NOTIFY := false |} in
  let fetch := fun _ : string =>
    Response true [ {| valign := Some "top"; tds := ["1"; "XYZ999"; "3"] |};
                    {| valign := Some "top"; tds := ["2"; "ABC200"; "1"] |} ] in
  let file := Stored [("ABC123", {| rec_open := true; rec_seats := 5;
                                    gone_notified := false |});
                      ("XYZ000", {| rec_open := true; rec_seats := 5;
                                    gone_notified := false |})] in
  notifications (output (main cfg fetch file))
  = [EvAppeared "ABC200" true 1; EvGone "ABC123"]
  /\ passes_filter cfg (event_code (EvGone "ABC123")) = true.
Proof.
  intros cfg fetch file. split; [reflexivity|].
  apply (notifications_pass_filter cfg fetch file (EvGone "ABC123")).
  simpl. right. now left.
Defined.

(** A first run that finds at least one course, followed by a run that
    fetches the same: the second run reports nothing and does not write the
    file. *)
Theorem first_run_then_no_changes (cfg : Config) (fetch : string -> Fetched)
    (file : StateFile) (latest : dict Info) :
  first_run file = true ->
  latest_of cfg fetch = Ok latest ->
  latest <> [] ->
  let file1 := file_after (main cfg fetch file) in
  main cfg fetch file1
  = {| outcome := Ok tt; file_written := false; file_after := file1;
       output := [Stdout no_changes_line] |}.
Proof.
  intros Hf El Hne file1. unfold file1.
  rewrite (main_first_run _ _ _ _ Hf El).
  cbn [first_run_branch file_after].
  pose proof (latest_of_wf _ _ _ El) as Hwf.
  assert (Hf1 : first_run (Stored (as_baseline latest)) = false).
  { destruct latest; [contradiction|reflexivity]. }
  rewrite (main_steady _ _ _ _ Hf1 El). unfold steady_branch.
  cbn [load_courses].
  assert (Hd : differ cfg latest (as_baseline latest)
               = {| prev_courses := as_baseline latest; changed := false;
                    events := [] |}).
  { rewrite differ_unfold. cbv zeta.
    rewrite diff_latest_noop.
    - apply gone_fold_noop. cbn [prev_courses]. intros c Hc.
      rewrite as_baseline_keys in Hc. apply dict_mem_keys in Hc.
      unfold gone_fires. rewrite Hc. cbn [negb]. now rewrite andb_false_r.
    - intros [k i] HIn. unfold fired. cbn [prev_courses fst snd].
      rewrite as_baseline_get, (dict_get_in _ _ _ Hwf HIn).
      apply classify_of_info. }
  rewrite Hd. reflexivity.
Qed.

Lemma first_run_then_no_changes_witness :
  let cfg := {| PORTAL_URLS := ["u"]; COURSE_CODES := [];
                CODE_PREFIXES := []; INITIAL_NOTIFY := true |} in
  let fetch := fun _ : string =>
    Response true [ {| valign := Some "top"; tds := ["1"; "ABC123"; "5"] |} ] in
  let file1 := file_after (main cfg fetch Missing) in
  output (main cfg fetch Missing) = [Notify (EvInitial "ABC123" true 5)]
  /\ main cfg fetch file1
     = {| outcome := Ok tt; file_written := false; file_after := file1;
          output := [Stdout no_changes_line] |}.
Proof.
  intros cfg fetch file1. split; [reflexivity|].
  apply (first_run_then_no_changes cfg fetch Missing
           [("ABC123", {| open := true; seats := 5 |})]).
  - reflexivity.
  - reflexivity.
  - discriminate.
Defined.

(** With no page to fetch a run does not fail: on a steady-state run
    every course of the baseline that is in scope and not yet flagged is
    reported as disappeared, in the order of the baseline, and nothing else
    is reported. *)
Theorem no_sources_reports_all_gone (cfg : Config)
    (fetch : string -> Fetched) (file : StateFile) :
  PORTAL_URLS cfg = [] ->
  first_run file = false ->
  dict_wf (load_courses file) ->
  outcome (main cfg fetch file) = Ok tt
  /\ notifications (output (main cfg fetch file))
     = map EvGone
         (filter (fun c => passes_filter cfg c
                           && match dict_get c (load_courses file) with
                              | Some r => negb (gone_notified r)
                              | None => false
                              end)
                 (dict_keys (load_courses file))).
Proof.
  intros Hurls Hf Hbase.
  assert (El : latest_of cfg fetch = Ok []).
  { unfold latest_of, fetch_all. now rewrite Hurls. }
  rewrite (main_steady _ _ _ _ Hf El), steady_notifications.
  split; [reflexivity|].
  rewrite differ_events_eq by (assumption || constructor).
  cbn [flat_map app]. f_equal. apply filter_agree.
  intros c _. unfold gone_fires. cbn. now rewrite andb_true_r.
Qed.

Lemma no_sources_reports_all_gone_witness :
  let cfg := {| PORTAL_URLS := []; COURSE_CODES := [];
                CODE_PREFIXES := ["ABC"]; INITIAL_NOTIFY := false |} in
  let fetch := fun _ : string => GetRaises in
  let file := Stored [("ABC123", {| rec_open := true; rec_seats := 5;
                                    gone_notified := false |});
                      ("XYZ999", {| rec_open := true; rec_seats := 1;
                                    gone_notified := false |});
                      ("ABC200", {| rec_open := true; rec_seats := 1;
                                    gone_notified := true |});
                      ("ABC300", {| rec_open := false; rec_seats := 0;
                                    gone_notified := false |})] in
  notifications (output (main cfg fetch file))
  = [EvGone "ABC123"; EvGone "ABC300"].
Proof.
  intros cfg fetch file.
  destruct (no_sources_reports_all_gone cfg fetch file) as [_ H].
  - reflexivity.
  - reflexivity.
  - distinct_keys.
  - rewrite H. reflexivity.
Defined.

(** ** Configuration: the comma-separated variables *)

Lemma lstrip_blank s : lstrip s = EmptyString <-> all_chars is_space s = true.
Proof.
  induction s as [|c r IH]; simpl; [tauto|].
  destruct (is_space c); simpl; [exact IH|]. split; discriminate.
Qed.

Lemma rstrip_blank s : rstrip s = EmptyString <-> all_chars is_space s = true.
Proof.
  induction s as [|c r IH]; simpl; [tauto|].
  destruct (rstrip r) as [|c' r'] eqn:E.
  - rewrite (proj1 IH eq_refl), andb_true_r.
    destruct (is_space c); split; auto; discriminate.
  - split; [discriminate|]. intros H. apply andb_true_iff in H as [_ H].
    apply IH in H. discriminate.
Qed.

Lemma lstrip_all_space s :
  all_chars is_space (lstrip s) = all_chars is_space s.
Proof.
  induction s as [|c r IH]; simpl; [reflexivity|].
  destruct (is_space c) eqn:E; simpl; [exact IH|now rewrite E].
Qed.

Lemma strip_blank s : strip s = EmptyString <-> all_chars is_space s = true.
Proof. unfold strip. now rewrite rstrip_blank, lstrip_all_space. Qed.

Lemma lstrip_fixed s : starts_with_space s = false -> lstrip s = s.
Proof. destruct s as [|c r]; simpl; [reflexivity|]. now intros ->. Qed.

Lemma ends_with_space_cons c s :
  ends_with_space (String c s)
  = match s with EmptyString => is_space c | _ => ends_with_space s end.
Proof. reflexivity. Qed.

Lemma rstrip_fixed s : ends_with_space s = false -> rstrip s = s.
Proof.
  induction s as [|c r IH]; [reflexivity|].
  rewrite ends_with_space_cons. cbn [rstrip].
  destruct r as [|c' r']; [simpl; now intros ->|].
  intros H. now rewrite (IH H).
Qed.

Lemma lstrip_starts s : starts_with_space (lstrip s) = false.
Proof.
  induction s as [|c r IH]; simpl; [reflexivity|].
  destruct (is_space c) eqn:E; [exact IH|exact E].
Qed.

Lemma rstrip_ends s : ends_with_space (rstrip s) = false.
Proof.
  induction s as [|c r IH]; [reflexivity|].
  cbn [rstrip]. destruct (rstrip r) as [|c' r'] eqn:E.
  - destruct (is_space c) eqn:Ec; [reflexivity|exact Ec].
  - now rewrite ends_with_space_cons.
Qed.

Lemma rstrip_starts s :
  starts_with_space s = false -> starts_with_space (rstrip s) = false.
Proof.
  destruct s as [|c r]; [reflexivity|]. cbn [rstrip starts_with_space].
  intros Hc. destruct (rstrip r); [now rewrite Hc|exact Hc].
Qed.

Lemma lstrip_all p s : all_chars p s = true -> all_chars p (lstrip s) = true.
Proof.
  induction s as [|c r IH]; simpl; [reflexivity|].
  intros H. apply andb_true_iff in H as [Hc Hr].
  destruct (is_space c); [now apply IH|]. simpl. now rewrite Hc, Hr.
Qed.

Lemma rstrip_all p s : all_chars p s = true -> all_chars p (rstrip s) = true.
Proof.
  induction s as [|c r IH]; [reflexivity|].
  cbn [rstrip all_chars]. intros H. apply andb_true_iff in H as [Hc Hr].
  specialize (IH Hr). destruct (rstrip r) as [|c' r'].
  - destruct (is_space c); [reflexivity|]. simpl. now rewrite Hc.
  - cbn [all_chars] in *. now rewrite Hc, IH.
Qed.

Lemma split_commas_pieces s :
  Forall (fun x => all_chars not_comma x = true) (split_commas s).
Proof.
  induction s as [|c r IH]; [repeat constructor|].
  cbn [split_commas]. destruct (Ascii.eqb c ","%char) eqn:Ec.
  - constructor; [reflexivity|exact IH].
  - destruct (split_commas r) as [|h t].
    + constructor; [|constructor]. simpl. unfold not_comma. now rewrite Ec.
    + inversion IH as [|? ? Hh Ht]; subst. constructor; [|exact Ht].
      simpl. unfold not_comma at 1. now rewrite Ec, Hh.
Qed.

(** Every item read from a comma-separated variable is usable as it is:
    not empty, without comma, without whitespace at either end. *)
Theorem env_list_items_clean (v u : string) :
  In u (env_list v) -> clean_item u.
Proof.
  unfold env_list. intros H.
  apply in_map_iff in H as [x [<- Hx]].
  apply filter_In in Hx as [Hx Hne].
  pose proof (split_commas_pieces v) as Hp.
  rewrite Forall_forall in Hp. specialize (Hp x Hx).
  unfold clean_item, strip. repeat split.
  - intros E. unfold strip in Hne. now rewrite E in Hne.
  - apply rstrip_all, lstrip_all. exact Hp.
  - apply rstrip_starts, lstrip_starts.
  - apply rstrip_ends.
Qed.

Lemma env_list_items_clean_witness :
  env_list " https://a/x.html ,, https://b/y.html ,  "
  = ["https://a/x.html"; "https://b/y.html"]
  /\ clean_item "https://b/y.html".
Proof.
  split; [reflexivity|].
  apply (env_list_items_clean " https://a/x.html ,, https://b/y.html ,  ").
  simpl. right. now left.
Defined.

Lemma split_commas_single x :
  all_chars not_comma x = true -> split_commas x = [x].
Proof.
  induction x as [|c r IH]; [reflexivity|].
  cbn [all_chars split_commas]. intros H.
  apply andb_true_iff in H as [Hc Hr]. unfold not_comma in Hc.
  apply negb_true_iff in Hc. now rewrite Hc, (IH Hr).
Qed.

Lemma split_commas_first x rest :
  all_chars not_comma x = true ->
  split_commas (x ++ String ","%char rest)%string = x :: split_commas rest.
Proof.
  induction x as [|c r IH]; [reflexivity|].
  cbn [all_chars append split_commas]. intros H.
  apply andb_true_iff in H as [Hc Hr]. unfold not_comma in Hc.
  apply negb_true_iff in Hc. now rewrite Hc, (IH Hr).
Qed.

Lemma split_commas_join items :
  items <> [] ->
  Forall (fun x => all_chars not_comma x = true) items ->
  split_commas (String.concat "," items) = items.
Proof.
  induction items as [|x rest IH]; [contradiction|].
  intros _ Hall. inversion Hall as [|? ? Hx Hrest]; subst.
  destruct rest as [|y rest'].
  - simpl. now apply split_commas_single.
  - change (String.concat "," (x :: y :: rest'))
      with (x ++ String ","%char (String.concat "," (y :: rest')))%string.
    rewrite split_commas_first by exact Hx.
    f_equal. apply IH; [discriminate|exact Hrest].
Qed.

Lemma strip_clean u : clean_item u -> strip u = u.
Proof.
  intros [_ [_ [Hs He]]]. unfold strip.
  rewrite (lstrip_fixed _ Hs). now apply rstrip_fixed.
Qed.

Lemma env_items_kept l :
  Forall clean_item l ->
  map strip (filter (fun u => negb (is_empty (strip u))) l) = l.
Proof.
  induction 1 as [|u l Hu Hl IH]; [reflexivity|].
  cbn [filter]. rewrite (strip_clean u Hu).
  assert (E : is_empty u = false).
  { destruct Hu as [Hne _]. now destruct u. }
  rewrite E. cbn [negb map]. now rewrite IH, (strip_clean u Hu).
Qed.

(** Round trip: a list of clean items written with commas between them is
    read back as it is. *)
Theorem env_list_join (items : list string) :
  Forall clean_item items ->
  env_list (String.concat "," items) = items.
Proof.
  intros Hall. unfold env_list.
  destruct items as [|x rest]; [reflexivity|].
  rewrite split_commas_join.
  - now apply env_items_kept.
  - discriminate.
  - eapply Forall_impl; [|exact Hall]. now intros u [_ [H _]].
Qed.

Lemma env_list_join_witness :
  env_list "https://a/x.html,https://b/y.html"
  = ["https://a/x.html"; "https://b/y.html"].
Proof.
  apply (env_list_join ["https://a/x.html"; "https://b/y.html"]).
  repeat constructor; discriminate.
Defined.

Lemma split_commas_some s : split_commas s <> [].
Proof.
  destruct s as [|c r]; [discriminate|]. cbn [split_commas].
  destruct (Ascii.eqb c ","%char); [discriminate|].
  destruct (split_commas r); discriminate.
Qed.

Lemma split_commas_blank s :
  all_chars comma_or_space s = true
  <-> Forall (fun x => all_chars is_space x = true) (split_commas s).
Proof.
  induction s as [|c r IH]; [split; [repeat constructor|reflexivity]|].
  cbn [all_chars split_commas]. unfold comma_or_space at 1.
  rewrite andb_true_iff, IH.
  destruct (Ascii.eqb c ","%char) eqn:Ec.
  - rewrite orb_true_r. split.
    + intros [_ H]. now constructor.
    + intros H. inversion H. now split.
  - rewrite orb_false_r.
    destruct (split_commas r) as [|h t] eqn:E; [now apply split_commas_some in E|].
    split.
    + intros [Hc H]. inversion H as [|? ? Hh Ht]; subst.
      constructor; [|exact Ht]. simpl. now rewrite Hc, Hh.
    + intros H. inversion H as [|? ? Hh Ht]; subst.
      simpl in Hh. apply andb_true_iff in Hh as [Hc Hh].
      split; [exact Hc|now constructor].
Qed.

Lemma filter_nil_iff {A} (f : A -> bool) l :
  filter f l = [] <-> Forall (fun a => f a = false) l.
Proof.
  induction l as [|a r IH]; simpl; [split; [constructor|reflexivity]|].
  destruct (f a) eqn:E.
  - split; [discriminate|]. intros H. inversion H. congruence.
  - rewrite IH. split; [now constructor|]. intros H. now inversion H.
Qed.

(** A comma-separated variable yields no item exactly when its value holds
    nothing but commas and whitespace; the empty value is one such. *)
Theorem env_list_empty_iff (v : string) :
  env_list v = [] <-> all_chars comma_or_space v = true.
Proof.
  unfold env_list. rewrite split_commas_blank. split.
  - intros H. apply map_eq_nil in H. apply filter_nil_iff in H.
    eapply Forall_impl; [|exact H]. cbn beta. intros x Hx.
    apply strip_blank. apply negb_false_iff in Hx. now destruct (strip x).
  - intros H.
    assert (E : filter (fun u => negb (is_empty (strip u))) (split_commas v) = []).
    { apply filter_nil_iff. eapply Forall_impl; [|exact H]. cbn beta.
      intros x Hx. apply strip_blank in Hx. now rewrite Hx. }
    now rewrite E.
Qed.

(** ** Configuration: the initial-notify switch *)

Lemma lower_char_f c : lower_char c = "f"%char <-> either_case "f" "F" c.
Proof.
  split.
  - destruct c as [[] [] [] [] [] [] [] []]; vm_compute; intros H;
      try discriminate H; auto.
  - intros [->| ->]; reflexivity.
Qed.

Lemma lower_char_a c : lower_char c = "a"%char <-> either_case "a" "A" c.
Proof.
  split.
  - destruct c as [[] [] [] [] [] [] [] []]; vm_compute; intros H;
      try discriminate H; auto.
  - intros [->| ->]; reflexivity.
Qed.

Lemma lower_char_l c : lower_char c = "l"%char <-> either_case "l" "L" c.
Proof.
  split.
  - destruct c as [[] [] [] [] [] [] [] []]; vm_compute; intros H;
      try discriminate H; auto.
  - intros [->| ->]; reflexivity.
Qed.

Lemma lower_char_s c : lower_char c = "s"%char <-> either_case "s" "S" c.
Proof.
  split.
  - destruct c as [[] [] [] [] [] [] [] []]; vm_compute; intros H;
      try discriminate H; auto.
  - intros [->| ->]; reflexivity.
Qed.

Lemma lower_char_e c : lower_char c = "e"%char <-> either_case "e" "E" c.
Proof.
  split.
  - destruct c as [[] [] [] [] [] [] [] []]; vm_compute; intros H;
      try discriminate H; auto.
  - intros [->| ->]; reflexivity.
Qed.

Lemma lower_char_zero c : lower_char c = "0"%char <-> c = "0"%char.
Proof.
  split.
  - destruct c as [[] [] [] [] [] [] [] []]; vm_compute; intros H;
      try discriminate H; auto.
  - intros ->. reflexivity.
Qed.

Lemma lower_empty v : lower v = EmptyString <-> v = EmptyString.
Proof. destruct v; simpl; split; congruence. Qed.

Lemma lower_zero v : lower v = "0" <-> v = "0".
Proof.
  split; [|intros ->; reflexivity].
  destruct v as [|c [|c' r]]; cbn [lower]; try discriminate.
  intros [= H]. apply (proj1 (lower_char_zero c)) in H. now subst.
Qed.

Lemma lower_false v : lower v = "false" <-> any_case_false v.
Proof.
  split.
  - destruct v as [|c1 [|c2 [|c3 [|c4 [|c5 [|c6 r]]]]]]; cbn [lower];
      try discriminate.
    intros [= H1 H2 H3 H4 H5].
    exists c1, c2, c3, c4, c5. split; [reflexivity|].
    apply (proj1 (lower_char_f _)) in H1. apply (proj1 (lower_char_a _)) in H2.
    apply (proj1 (lower_char_l _)) in H3. apply (proj1 (lower_char_s _)) in H4.
    apply (proj1 (lower_char_e _)) in H5. auto.
  - intros [c1 [c2 [c3 [c4 [c5 [-> [H1 [H2 [H3 [H4 H5]]]]]]]]]].
    apply (proj2 (lower_char_f _)) in H1. apply (proj2 (lower_char_a _)) in H2.
    apply (proj2 (lower_char_l _)) in H3. apply (proj2 (lower_char_s _)) in H4.
    apply (proj2 (lower_char_e _)) in H5.
    cbn [lower]. now rewrite H1, H2, H3, H4, H5.
Qed.

(** The first run notifies unless [INITIAL_NOTIFY] is unset, empty, "0" or
    the word "false" in any mix of cases; any other value, surrounding
    whitespace included, switches the initial notifications on. *)
Theorem initial_notify_off_iff (value : option string) :
  initial_notify value = false
  <-> value = None \/ value = Some EmptyString \/ value = Some "0"
      \/ exists v, value = Some v /\ any_case_false v.
Proof.
  unfold initial_notify. rewrite negb_false_iff, str_in_In.
  cbn [In]. split.
  - intros [H|[H|[H|[]]]]; symmetry in H.
    + destruct value as [v|]; [|now left]. cbn [getenv] in H.
      apply (proj1 (lower_zero v)) in H. subst. right; right; now left.
    + destruct value as [v|]; [|discriminate]. cbn [getenv] in H.
      apply (proj1 (lower_false v)) in H. right; right; right. now exists v.
    + destruct value as [v|]; [|discriminate]. cbn [getenv] in H.
      apply (proj1 (lower_empty v)) in H. subst. right; now left.
  - intros [->|[->|[->|[v [-> H]]]]]; cbn [getenv].
    + now left.
    + right; right; now left.
    + now left.
    + right; left. symmetry. now apply lower_false.
Qed.

Lemma initial_notify_off_iff_witness :
  initial_notify (Some "FaLsE") = false
  /\ initial_notify (Some "no") = true
  /\ initial_notify (Some " 0") = true.
Proof.
  split; [|split; reflexivity].
  apply (proj2 (initial_notify_off_iff (Some "FaLsE"))).
  right; right; right. exists "FaLsE". split; [reflexivity|].
  exists "F"%char, "a"%char, "L"%char, "s"%char, "E"%char.
  unfold either_case. repeat split; auto.
Defined.

(** ** The run: no code is notified twice *)

Lemma events_for_gone_once code l :
  NoDup l -> (length (events_for code (map EvGone l)) <= 1)%nat.
Proof.
  induction l as [|c r IH]; intros Hnd; [simpl; lia|].
  inversion Hnd as [|? ? Hc Hr]; subst. simpl.
  destruct (String.eqb_spec c code) as [->|Hne]; [|now apply IH].
  simpl. rewrite events_for_gone by exact Hc. simpl. lia.
Qed.

Lemma events_for_initial_once code latest :
  dict_wf latest ->
  (length (events_for code (map initial_event latest)) <= 1)%nat.
Proof.
  unfold dict_wf.
  induction latest as [|[k i] r IH]; intros Hnd; [simpl; lia|].
  inversion Hnd as [|? ? Hk Hr]; subst. simpl.
  destruct (String.eqb_spec k code) as [->|Hne]; [|now apply IH].
  simpl. rewrite events_for_initial; [simpl; lia|].
  now apply dict_get_none_keys.
Qed.

(** A run sends at most one notification about any one code: an initial
    event on a first run; on a steady-state run either the event of its
    classification or a disappearance event, never both and never twice. *)
Theorem one_notification_per_code (cfg : Config) (fetch : string -> Fetched)
    (file : StateFile) (code : string) :
  dict_wf (load_courses file) ->
  (length (events_for code (notifications (output (main cfg fetch file))))
   <= 1)%nat.
Proof.
  intros Hbase.
  destruct (main_cases cfg fetch file)
    as [[e [_ ->]]|[[latest [El [_ ->]]]|[latest [El [_ ->]]]]].
  - simpl. lia.
  - rewrite first_run_notifications.
    destruct (INITIAL_NOTIFY cfg); [|simpl; lia].
    apply events_for_initial_once. now apply (latest_of_wf cfg fetch).
  - pose proof (latest_of_wf _ _ _ El) as Hwf.
    rewrite steady_notifications.
    destruct (dict_get code latest) as [info|] eqn:Ei.
    + apply dict_get_some_in in Ei.
      destruct (differ_at cfg latest (load_courses file) code info Hwf Ei)
        as [-> _].
      destruct (classify _ code info); simpl; lia.
    + rewrite (differ_events_eq _ _ _ Hwf Hbase), events_for_app.
      rewrite events_for_absent by now apply dict_get_none_keys.
      cbn [app]. apply events_for_gone_once.
      apply NoDup_filter. exact Hbase.
Qed.

Lemma one_notification_per_code_witness :
  let cfg := {| PORTAL_URLS := ["a"; "b"]; COURSE_CODES := [];
                CODE_PREFIXES := []; INITIAL_NOTIFY := false |} in
  let fetch := fun url : string =>
    if String.eqb url "a"
    then Response true
           [ {| valign := Some "top"; tds := ["1"; "ABC123"; "5"] |};
             {| valign := Some "top"; tds := ["2"; "ABC123"; "0"] |} ]
    else Response true
           [ {| valign := Some "top"; tds := ["1"; "ABC123"; "2"] |} ] in
  let file := Stored [("ABC123", {| rec_open := false; rec_seats := 0;
                                    gone_notified := true |})] in
  output (main cfg fetch file) = [Notify (EvNowOpen "ABC123" 0 2)]
  /\ (length (events_for "ABC123"
                (notifications (output (main cfg fetch file)))) <= 1)%nat.
Proof.
  intros cfg fetch file. split; [reflexivity|].
  apply (one_notification_per_code cfg fetch file "ABC123"). distinct_keys.
Defined.
